(** * misskey_emoji_uploader: the synchronisation engine

    A shallow embedding of [misskey_emoji_uploader.py]: the JSON values the
    script receives from the instance, the Python operations it applies to
    them, the requests it sends, and its functions [create_drive_folder],
    [create_drive_folder_path], [drive_upload_file], [emoji_add] and
    [start], written in a state-and-exception monad over an arbitrary
    remote.  Strings are [string]s of ASCII characters; Python's [None] is
    JSON's [null]. *)

From Stdlib Require Import String Ascii ZArith Lia.
From stdpp Require Import base option list strings pretty gmap.

Local Open Scope string_scope.
Local Open Scope list_scope.

(** ** Python strings *)

Module Str.

(** [c.lower()] on an ASCII character: the letters A..Z move to a..z. *)
Definition lower_ascii (c : ascii) : ascii :=
  let n := nat_of_ascii c in
  if (65 <=? n)%nat && (n <=? 90)%nat then ascii_of_nat (n + 32) else c.

(** [s.lower()] *)
Fixpoint lower (s : string) : string :=
  match s with
  | EmptyString => EmptyString
  | String c s' => String (lower_ascii c) (lower s')
  end.

(** [s.replace(a, b)] for one-character [a] and [b]. *)
Fixpoint replace (a b : ascii) (s : string) : string :=
  match s with
  | EmptyString => EmptyString
  | String c s' => String (if Ascii.eqb c a then b else c) (replace a b s')
  end.

(** [s.split(sep)] for a one-character separator: never the empty list. *)
Fixpoint split (sep : ascii) (s : string) : list string :=
  match s with
  | EmptyString => [EmptyString]
  | String c s' =>
      if Ascii.eqb c sep then EmptyString :: split sep s'
      else match split sep s' with
           | [] => [String c EmptyString]
           | w :: ws => String c w :: ws
           end
  end.

(** [s.rfind(c)]: the index of the last occurrence, [None] for Python's -1. *)
Fixpoint rfind (c : ascii) (s : string) : option nat :=
  match s with
  | EmptyString => None
  | String a s' =>
      match rfind c s' with
      | Some i => Some (S i)
      | None => if Ascii.eqb a c then Some 0%nat else None
      end
  end.

(** [s[:i]] *)
Definition take (i : nat) (s : string) : string := String.substring 0 i s.

(** [needle in s] for strings: substring search. *)
Fixpoint contains (needle s : string) : bool :=
  String.prefix needle s ||
  match s with
  | EmptyString => false
  | String _ s' => contains needle s'
  end.

(** What the spec calls "the portion before the first dot". *)
Fixpoint before_first (sep : ascii) (s : string) : string :=
  match s with
  | EmptyString => EmptyString
  | String c s' =>
      if Ascii.eqb c sep then EmptyString else String c (before_first sep s')
  end.

(** The number of occurrences of a character. *)
Fixpoint count (c : ascii) (s : string) : nat :=
  match s with
  | EmptyString => 0
  | String a s' => (if Ascii.eqb a c then 1 else 0) + count c s'
  end.

End Str.

(** ** pathlib

    A [Path] is the sequence of its components, as [PurePath] keeps them. *)

Definition Path : Type := list string.

Module PathLib.

(** [path.name]: the final component, the empty string when there is none. *)
Definition name (p : Path) : string := List.last p EmptyString.

(** [path.stem]: the name without its last suffix.  A dot at index 0 or at
    the end of the name does not start a suffix. *)
Definition stem (p : Path) : string :=
  let n := name p in
  match Str.rfind "." n with
  | Some i =>
      if (0 <? i)%nat && (i <? String.length n - 1)%nat then Str.take i n else n
  | None => n
  end.

End PathLib.

(** ** Name derivation ([start], the first statement of the loop body)

    [emoji_path.stem.split(".")[0].lower().replace("-", "_")] *)

Definition derive_name (emoji_path : Path) : string :=
  Str.replace "-" "_"
    (Str.lower (List.hd EmptyString (Str.split "." (PathLib.stem emoji_path)))).

(** The derivation as the specification words it, on the base name. *)
Definition derive_spec (base_name : string) : string :=
  Str.replace "-" "_" (Str.lower (Str.before_first "." base_name)).


(** ** JSON values and the Python operations applied to them

    [json.loads] turns a response body into dicts, lists, strings, numbers,
    booleans and [None]; an object keeps its keys in document order, each
    key once. *)

#[local] Set Warnings "-register-all".

Inductive json : Type :=
| JNull
| JBool (b : bool)
| JNum (n : Z)
| JStr (s : string)
| JArr (items : list json)
| JObj (fields : list (string * json)).

(** The exceptions the script raises itself ([RuntimeError], with its
    argument) and those the interpreter raises on a malformed body. *)
Inductive exn : Type :=
| RuntimeError (payload : json)
| KeyError (key : string)
| TypeError.

(** How a computation ends: with a value, with an exception, or (for the
    [while True] loops) with the iteration budget of the model used up. *)
Inductive result (A : Type) : Type :=
| Ok (a : A)
| Raise (e : exn)
| OutOfFuel.

Arguments Ok {A} a.
Arguments Raise {A} e.
Arguments OutOfFuel {A}.

Definition rbind {A B : Type} (r : result A) (k : A -> result B) : result B :=
  match r with
  | Ok a => k a
  | Raise e => Raise e
  | OutOfFuel => OutOfFuel
  end.

Module Py.

(** [v == s] for a string literal [s]. *)
Definition eq_str (v : json) (s : string) : bool :=
  match v with
  | JStr t => String.eqb t s
  | _ => false
  end.

Fixpoint assoc (k : string) (fields : list (string * json)) : option json :=
  match fields with
  | [] => None
  | (k', v) :: rest => if String.eqb k' k then Some v else assoc k rest
  end.

(** [k in v]: key membership in a dict, element membership in a list,
    substring test on a string, [TypeError] on anything else. *)
Definition contains (k : string) (v : json) : result bool :=
  match v with
  | JObj fields => Ok (existsb (fun kv => String.eqb (fst kv) k) fields)
  | JArr items => Ok (existsb (fun x => eq_str x k) items)
  | JStr s => Ok (Str.contains k s)
  | _ => Raise TypeError
  end.

(** [v[k]] for a string key: only a dict can be subscripted by a string. *)
Definition getitem (v : json) (k : string) : result json :=
  match v with
  | JObj fields =>
      match assoc k fields with
      | Some x => Ok x
      | None => Raise (KeyError k)
      end
  | _ => Raise TypeError
  end.

(** [for x in v]: the elements of a list, the keys of a dict, the
    characters of a string. *)
Fixpoint chars (s : string) : list json :=
  match s with
  | EmptyString => []
  | String c s' => JStr (String c EmptyString) :: chars s'
  end.

Definition iter (v : json) : result (list json) :=
  match v with
  | JArr items => Ok items
  | JObj fields => Ok (map (fun kv => JStr (fst kv)) fields)
  | JStr s => Ok (chars s)
  | _ => Raise TypeError
  end.

End Py.

(** ** Requests and observable events *)

(** One constructor per endpoint the script calls, with the fields it sends
    (the token and the timeout are the same on every request). *)
Inductive request : Type :=
| GetEmojis
| PostEmojiAdd (name : string) (file_id : json) (category license : string)
               (sensitive local_only : bool)
| PostDriveFolders (folder_id : json)
| PostDriveFoldersShow (folder_id : json)
| PostDriveFoldersCreate (name : string) (parent_id : json)
| PostDriveFilesCreate (file : Path) (file_name mime_type : string)
                       (folder_id : json).

Inductive event : Type :=
| Sent (r : request)
| Slept (seconds : nat).

Definition RATE_LIMIT_WAIT : nat := 60.

(** A request that creates a folder. *)
Definition is_folder_create (e : event) : bool :=
  match e with
  | Sent (PostDriveFoldersCreate _ _) => true
  | _ => false
  end.

(** A request that creates an emoji. *)
Definition is_emoji_add (e : event) : bool :=
  match e with
  | Sent (PostEmojiAdd _ _ _ _ _ _) => true
  | _ => false
  end.

(** A request for the record of one folder. *)
Definition is_folder_show (e : event) : bool :=
  match e with
  | Sent (PostDriveFoldersShow _) => true
  | _ => false
  end.

Definition is_sleep (e : event) : bool :=
  match e with
  | Slept _ => true
  | _ => false
  end.

(** The events of [n] rate-limited attempts at [req]: each attempt is
    followed by one sleep of [RATE_LIMIT_WAIT]. *)
Fixpoint retries (n : nat) (req : request) : list event :=
  match n with
  | O => []
  | S n' => Sent req :: Slept RATE_LIMIT_WAIT :: retries n' req
  end.

(** ** The client

    The remote is a parameter: a type of remote states and the function
    that answers one request, giving the parsed body and the next state.
    [guess_type] stands for [mimetypes.guess_type] (first component). *)

Section Client.

Context {W : Type}.
Variable respond : request -> W -> json * W.
Variable guess_type : string -> option string.

(** The remote, the events so far, and the two counters of [start]. *)
Record state : Type := mk_state {
  remote : W;
  events : list event;
  success_count : nat;
  skipped_count : nat
}.

Definition M (A : Type) : Type := state -> result A * state.

Definition ret {A : Type} (a : A) : M A := fun st => (Ok a, st).

Definition bind {A B : Type} (m : M A) (k : A -> M B) : M B :=
  fun st =>
    match m st with
    | (Ok a, st') => k a st'
    | (Raise e, st') => (Raise e, st')
    | (OutOfFuel, st') => (OutOfFuel, st')
    end.

Definition lift {A : Type} (r : result A) : M A := fun st => (r, st).

Definition raise {A : Type} (e : exn) : M A := lift (Raise e).

Definition out_of_fuel {A : Type} : M A := lift OutOfFuel.

Local Notation "x <- m ;; k" := (bind m (fun x => k))
  (at level 100, m at next level, right associativity).

(** [requests.get]/[requests.post] followed by [json.loads(response.text)] *)
Definition send (req : request) : M json :=
  fun st =>
    let (body, w) := respond req (remote st) in
    (Ok body,
     mk_state w (events st ++ [Sent req]) (success_count st) (skipped_count st)).

(** [time.sleep(seconds)] *)
Definition sleep (seconds : nat) : M unit :=
  fun st =>
    (Ok tt,
     mk_state (remote st) (events st ++ [Slept seconds])
              (success_count st) (skipped_count st)).

Definition emojis_get_current_list : M json :=
  body <- send GetEmojis ;;
  lift (Py.getitem body "emojis").

Definition emoji_add (emoji_name : string) (file_id : json)
    (category license_ : string) (sensitive local_only : bool) : M json :=
  send (PostEmojiAdd emoji_name file_id category license_ sensitive local_only).

Definition drive_get_folders (folder_id : json) : M json :=
  send (PostDriveFolders folder_id).

Definition drive_show_folders (folder_id : json) : M json :=
  send (PostDriveFoldersShow folder_id).

(** The [while True] loop of [create_drive_folder]; one unit of [fuel] per
    iteration. *)
Fixpoint create_drive_folder (fuel : nat) (name : string) (parent_id : json)
    : M json :=
  match fuel with
  | O => out_of_fuel
  | S fuel' =>
      data <- send (PostDriveFoldersCreate name parent_id) ;;
      has_error <- lift (Py.contains "error" data) ;;
      if has_error : bool then
        error <- lift (Py.getitem data "error") ;;
        code <- lift (Py.getitem error "code") ;;
        if Py.eq_str code "RATE_LIMIT_EXCEEDED" then
          _ <- sleep RATE_LIMIT_WAIT ;;
          create_drive_folder fuel' name parent_id
        else raise (RuntimeError data)
      else ret data
  end.

(** The inner [for f in folders] of [create_drive_folder_path]: the id of
    the first folder named [folder], if any. *)
Fixpoint find_folder (folder : string) (folders : list json)
    : result (option json) :=
  match folders with
  | [] => Ok None
  | f :: rest =>
      rbind (Py.getitem f "name") (fun n =>
        if Py.eq_str n folder
        then rbind (Py.getitem f "id") (fun i => Ok (Some i))
        else find_folder folder rest)
  end.

(** The outer [for folder in path_split], threading [parent_id] and
    [folder_data] ([None] until a folder has been created). *)
Fixpoint create_drive_folder_path_loop (fuel : nat) (path_split : list string)
    (parent_id : json) (folder_data : option json) : M (json * option json) :=
  match path_split with
  | [] => ret (parent_id, folder_data)
  | folder :: rest =>
      folders <- drive_get_folders parent_id ;;
      fs <- lift (Py.iter folders) ;;
      found <- lift (find_folder folder fs) ;;
      match found with
      | Some i => create_drive_folder_path_loop fuel rest i folder_data
      | None =>
          data <- create_drive_folder fuel folder parent_id ;;
          i <- lift (Py.getitem data "id") ;;
          create_drive_folder_path_loop fuel rest i (Some data)
      end
  end.

Definition create_drive_folder_path (fuel : nat) (path : string) : M json :=
  r <- create_drive_folder_path_loop fuel (Str.split "/" path) JNull None ;;
  match snd r with
  | None => drive_show_folders (fst r)
  | Some folder_data => ret folder_data
  end.

(** The [while True] loop of [drive_upload_file].  The file is taken to
    open at every iteration: an [OSError] from [file_path.open] is outside
    the model, so what is proved of an exception of this function is about
    the exceptions that come from a response. *)
Fixpoint drive_upload_file_loop (fuel : nat) (file_path : Path)
    (folder_id : json) (file_name mime_type : string) : M json :=
  match fuel with
  | O => out_of_fuel
  | S fuel' =>
      data <- send (PostDriveFilesCreate file_path file_name mime_type folder_id) ;;
      has_error <- lift (Py.contains "error" data) ;;
      if has_error : bool then
        error <- lift (Py.getitem data "error") ;;
        code <- lift (Py.getitem error "code") ;;
        if Py.eq_str code "RATE_LIMIT_EXCEEDED" then
          _ <- sleep RATE_LIMIT_WAIT ;;
          drive_upload_file_loop fuel' file_path folder_id file_name mime_type
        else
          error' <- lift (Py.getitem data "error") ;;
          raise (RuntimeError error')
      else ret data
  end.

Definition mime_of (file_name : string) : string :=
  match guess_type file_name with
  | Some mime_type => mime_type
  | None => "application/octet-stream"
  end.

(** After the loop the function logs [data["id"]], which is evaluated. *)
Definition drive_upload_file (fuel : nat) (file_path : Path) (folder_id : json)
    (file_name : string) : M json :=
  data <- drive_upload_file_loop fuel file_path folder_id file_name
            (mime_of file_name) ;;
  _ <- lift (Py.getitem data "id") ;;
  ret data.

(** [{emoji["name"]: emoji for emoji in current_emojis}].  Only string keys
    can ever equal a derived name, so other hashable keys are not kept; a
    list or a dict as key is unhashable. *)
Fixpoint emoji_index (current_emojis : list json) (acc : gmap string json)
    : result (gmap string json) :=
  match current_emojis with
  | [] => Ok acc
  | emoji :: rest =>
      rbind (Py.getitem emoji "name") (fun n =>
        match n with
        | JStr s => emoji_index rest (<[s := emoji]> acc)
        | JArr _ | JObj _ => Raise TypeError
        | _ => emoji_index rest acc
        end)
  end.

(** [emoji_name in emoji_dict] *)
Definition in_index (emoji_name : string) (emoji_dict : gmap string json) : bool :=
  bool_decide (is_Some (emoji_dict !! emoji_name)).

Definition incr_success : M unit :=
  fun st =>
    (Ok tt, mk_state (remote st) (events st) (S (success_count st)) (skipped_count st)).

Definition incr_skipped : M unit :=
  fun st =>
    (Ok tt, mk_state (remote st) (events st) (success_count st) (S (skipped_count st))).

Definition reset_counters : M unit :=
  fun st => (Ok tt, mk_state (remote st) (events st) 0 0).

(** The options of a run that every task shares. *)
Record options : Type := mk_options {
  category : string;
  license_ : string;
  sensitive : bool;
  local_only : bool
}.

(** The body of [for emoji_path in emoji_path_list]; [continue] ends it. *)
Definition upload_one (fuel : nat) (emoji_dict : gmap string json)
    (folder_id : json) (o : options) (emoji_path : Path) : M unit :=
  let emoji_name := derive_name emoji_path in
  if in_index emoji_name emoji_dict then incr_skipped
  else
    file_data <- drive_upload_file fuel emoji_path folder_id
                   (PathLib.name emoji_path) ;;
    file_id <- lift (Py.getitem file_data "id") ;;
    emoji_data <- emoji_add emoji_name file_id (category o) (license_ o)
                    (sensitive o) (local_only o) ;;
    has_error <- lift (Py.contains "error" emoji_data) ;;
    if has_error : bool then
      error <- lift (Py.getitem emoji_data "error") ;;
      code <- lift (Py.getitem error "code") ;;
      if Py.eq_str code "DUPLICATE_NAME" then incr_skipped
      else
        error' <- lift (Py.getitem emoji_data "error") ;;
        raise (RuntimeError error')
    else
      _ <- incr_success ;;
      _ <- lift (Py.getitem emoji_data "id") ;;
      ret tt.

Fixpoint start_loop (fuel : nat) (emoji_dict : gmap string json)
    (folder_id : json) (o : options) (emoji_path_list : list Path) : M unit :=
  match emoji_path_list with
  | [] => ret tt
  | emoji_path :: rest =>
      _ <- upload_one fuel emoji_dict folder_id o emoji_path ;;
      start_loop fuel emoji_dict folder_id o rest
  end.

(** What [start] reports at its end. *)
Record RunSummary : Type := mk_summary {
  total : nat;
  succeeded : nat;
  skipped : nat
}.

Definition report (total_emojis : nat) : M RunSummary :=
  fun st => (Ok (mk_summary total_emojis (success_count st) (skipped_count st)), st).

(** The statements of [start] before its loop: the counters, the index of
    the current emoji names, and the id of the target folder. *)
Definition start_setup (fuel : nat) (drive_path : string)
    : M (gmap string json * json) :=
  _ <- reset_counters ;;
  current_emojis <- emojis_get_current_list ;;
  emojis <- lift (Py.iter current_emojis) ;;
  emoji_dict <- lift (emoji_index emojis ∅) ;;
  folder_id <-
    (if String.eqb drive_path "" then ret JNull
     else
       folder_data <- create_drive_folder_path fuel drive_path ;;
       lift (Py.getitem folder_data "id")) ;;
  ret (emoji_dict, folder_id).

Definition start (fuel : nat) (emoji_path_list : list Path) (drive_path : string)
    (o : options) : M RunSummary :=
  let total_emojis := length emoji_path_list in
  setup <- start_setup fuel drive_path ;;
  _ <- start_loop fuel (fst setup) (snd setup) o emoji_path_list ;;
  report total_emojis.

End Client.

Arguments mk_state {W} _ _ _ _.
Arguments remote {W} _.
Arguments events {W} _.
Arguments success_count {W} _.
Arguments skipped_count {W} _.
Arguments M W A : clear implicits.

(** ** How the script reads a response

    The tests the loops and [start] apply to a parsed body, named after the
    signals of the specification. *)

(** [data["error"]["code"]] *)
Definition error_code (data : json) : result json :=
  rbind (Py.getitem data "error") (fun error => Py.getitem error "code").

(** ["error" in data] is false: the body is a success body. *)
Definition is_success (data : json) : bool :=
  match Py.contains "error" data with
  | Ok false => true
  | _ => false
  end.

(** ["error" in data] is true and the code is the literal [c]. *)
Definition has_code (c : string) (data : json) : bool :=
  match Py.contains "error" data, error_code data with
  | Ok true, Ok code => Py.eq_str code c
  | _, _ => false
  end.

Definition is_rate_limit : json -> bool := has_code "RATE_LIMIT_EXCEEDED".

Definition is_duplicate : json -> bool := has_code "DUPLICATE_NAME".

(** ["error" in data] is true and the code, whatever JSON value it is, is
    none of the literals [cs]. *)
Definition is_error_except (cs : list string) (data : json) : bool :=
  match Py.contains "error" data, error_code data with
  | Ok true, Ok code => forallb (fun c => negb (Py.eq_str code c)) cs
  | _, _ => false
  end.

(** An error that is neither a rate limit nor a duplicate name. *)
Definition is_remote_error : json -> bool :=
  is_error_except ["RATE_LIMIT_EXCEEDED"; "DUPLICATE_NAME"].

(** The remote state after [n] consecutive rate-limit answers to [req],
    if it does answer so. *)
Fixpoint limited {W : Type} (respond : request -> W -> json * W)
    (n : nat) (req : request) (w : W) : option W :=
  match n with
  | O => Some w
  | S n' =>
      let (body, w') := respond req w in
      if is_rate_limit body then limited respond n' req w' else None
  end.

(** The state [st] once the remote has moved to [w'] and the events [evs]
    have been added; the counters are those of [st]. *)
Definition after {W : Type} (st : state (W := W)) (w' : W) (evs : list event)
    : state (W := W) :=
  mk_state w' (events st ++ evs) (success_count st) (skipped_count st).

(** The state [st] with one more skipped task. *)
Definition skip_counted {W : Type} (st : state (W := W)) : state (W := W) :=
  mk_state (remote st) (events st) (success_count st) (S (skipped_count st)).

(** The emoji-creation request of a task, given the id of its file. *)
Definition add_request (o : options) (p : Path) (file_id : json) : request :=
  PostEmojiAdd (derive_name p) file_id (category o) (license_ o)
               (sensitive o) (local_only o).

(** The upload request of a task. *)
Definition upload_request (guess_type : string -> option string) (p : Path)
    (folder_id : json) : request :=
  PostDriveFilesCreate p (PathLib.name p) (mime_of guess_type (PathLib.name p))
                       folder_id.

(** The name a request gives to what it creates. *)
Definition request_name (r : request) : option string :=
  match r with
  | PostDriveFilesCreate _ file_name _ _ => Some file_name
  | PostEmojiAdd name _ _ _ _ _ => Some name
  | PostDriveFoldersCreate name _ => Some name
  | _ => None
  end.

(** The events a task may add: uploads of the file [p] under its full base
    name into [folder_id], sleeps, and emoji creations under the derived
    name. *)
Definition task_event (p : Path) (folder_id : json) (e : event) : Prop :=
  match e with
  | Sent (PostDriveFilesCreate file file_name _ folder) =>
      file = p /\ file_name = PathLib.name p /\ folder = folder_id
  | Sent (PostEmojiAdd name _ _ _ _ _) => name = derive_name p
  | Sent _ => False
  | Slept seconds => seconds = RATE_LIMIT_WAIT
  end.

(** [st'] has the events of [st] followed by events that all satisfy [P]. *)
Definition emits {W : Type} (P : event -> Prop) (st st' : state (W := W)) : Prop :=
  exists evs, events st' = events st ++ evs /\ Forall P evs.

(** A computation that only adds events satisfying [P], however it ends. *)
Definition emitting {W A : Type} (P : event -> Prop) (m : M W A) : Prop :=
  forall st, emits P st (snd (m st)).

(** [st'] has the counters of [st]. *)
Definition same_counters {W : Type} (st st' : state (W := W)) : Prop :=
  success_count st' = success_count st /\ skipped_count st' = skipped_count st.

(** A computation that leaves the counters alone, however it ends. *)
Definition keeps_counters {W A : Type} (m : M W A) : Prop :=
  forall st, same_counters st (snd (m st)).

(** The events a computation added to those of its initial state. *)
Definition emitted {W : Type} (st st' : state (W := W)) : list event :=
  drop (length (events st)) (events st').

Definition count_events (p : event -> bool) (evs : list event) : nat :=
  length (List.filter p evs).

(** A listed emoji that the index can take: a dict whose ["name"] is
    hashable (anything but a list or a dict). *)
Definition indexable (emoji : json) : bool :=
  match Py.getitem emoji "name" with
  | Ok (JArr _) | Ok (JObj _) => false
  | Ok _ => true
  | _ => false
  end.

(** A request for the folders under a parent. *)
Definition is_listing (e : event) : bool :=
  match e with
  | Sent (PostDriveFolders _) => true
  | _ => false
  end.

(** What a retry loop may have sent when it ends: [n] attempts, each
    followed by one sleep, and a last attempt unless the budget [fuel] of
    the model ran out. *)
Definition loop_trace {W A : Type} (fuel : nat) (req : request)
    (st : state (W := W)) (run : result A * state (W := W)) : Prop :=
  exists n,
    match fst run with
    | OutOfFuel => n = fuel /\ events (snd run) = events st ++ retries n req
    | _ => (n < fuel)%nat /\
           events (snd run) = events st ++ retries n req ++ [Sent req]
    end.

(** The events of one task of the loop: task events only, and none at all
    when the derived name is in the index. *)
Definition task_block (emoji_dict : gmap string json) (folder_id : json)
    (p : Path) (block : list event) : Prop :=
  Forall (task_event p folder_id) block /\
  (in_index (derive_name p) emoji_dict = true -> block = []).

(** ** A scripted remote

    The remote as a list of bodies, handed out in order whatever the
    request; a script that has run out answers [null]. *)

Module Scripted.

Definition world : Type := list json.

Definition respond (_ : request) (w : world) : json * world :=
  match w with
  | [] => (JNull, [])
  | body :: rest => (body, rest)
  end.

(** A one-entry MIME table. *)
Definition guess_type (file_name : string) : option string :=
  if Str.contains ".png" file_name then Some "image/png" else None.

Definition init (script : world) : state (W := world) := mk_state script [] 0 0.

Definition error (code : string) : json :=
  JObj [("error", JObj [("code", JStr code); ("message", JStr "...")])].

Definition record (id name : string) : json :=
  JObj [("id", JStr id); ("name", JStr name)].

Definition no_options : options := mk_options "" "" false false.

End Scripted.

(** ** A reference instance

    Modelled from the spec: the remote service is not part of the
    repository.  Section 3 gives its data ([FolderNode], [EmojiRecord], the
    folder tree rooted at [parentId = null], emoji names as unique keys) and
    section 6 its six operations; this instance answers every request at
    once, never limits the rate, lists all folders under a parent in
    creation order and numbers new entities consecutively. *)

Module Misskey.

Record FolderNode : Type := mk_folder {
  folder_id : string;
  folder_name : string;
  parentId : option string
}.

Record EmojiRecord : Type := mk_emoji {
  emoji_name : string;
  emoji_id : string;
  fileId : json
}.

Record DriveFile : Type := mk_file {
  file_id : string;
  file_name : string;
  file_folder : json
}.

Record instance : Type := mk_instance {
  folders : list FolderNode;
  files : list DriveFile;
  emojis : list EmojiRecord;
  next_id : nat
}.

Definition id_json (i : option string) : json :=
  match i with
  | None => JNull
  | Some s => JStr s
  end.

(** The id a request names: [null] for the root, a string for a folder. *)
Definition as_id (j : json) : option (option string) :=
  match j with
  | JNull => Some None
  | JStr s => Some (Some s)
  | _ => None
  end.

Definition same_id (i : option string) (j : json) : bool :=
  match i, j with
  | None, JNull => true
  | Some s, JStr t => String.eqb s t
  | _, _ => false
  end.

Definition folder_json (f : FolderNode) : json :=
  JObj [("id", JStr (folder_id f)); ("name", JStr (folder_name f));
        ("parentId", id_json (parentId f))].

Definition emoji_json (e : EmojiRecord) : json :=
  JObj [("id", JStr (emoji_id e)); ("name", JStr (emoji_name e));
        ("fileId", fileId e)].

Definition file_json (f : DriveFile) : json :=
  JObj [("id", JStr (file_id f)); ("name", JStr (file_name f));
        ("folderId", file_folder f)].

Definition error (code : string) : json :=
  JObj [("error", JObj [("code", JStr code)])].

Definition children (parent : json) (fs : list FolderNode) : list FolderNode :=
  List.filter (fun f => same_id (parentId f) parent) fs.

Definition respond (req : request) (m : instance) : json * instance :=
  match req with
  | GetEmojis =>
      (JObj [("emojis", JArr (map emoji_json (emojis m)))], m)
  | PostEmojiAdd name file _ _ _ _ =>
      if existsb (fun e => String.eqb (emoji_name e) name) (emojis m)
      then (error "DUPLICATE_NAME", m)
      else
        let e := mk_emoji name (pretty (next_id m)) file in
        (emoji_json e,
         mk_instance (folders m) (files m) (emojis m ++ [e]) (S (next_id m)))
  | PostDriveFolders parent =>
      (JArr (map folder_json (children parent (folders m))), m)
  | PostDriveFoldersShow folder =>
      match List.find (fun f => Py.eq_str folder (folder_id f)) (folders m) with
      | Some f => (folder_json f, m)
      | None => (error "NO_SUCH_FOLDER", m)
      end
  | PostDriveFoldersCreate name parent =>
      match as_id parent with
      | Some p =>
          let f := mk_folder (pretty (next_id m)) name p in
          (folder_json f,
           mk_instance (folders m ++ [f]) (files m) (emojis m) (S (next_id m)))
      | None => (error "INVALID_PARAM", m)
      end
  | PostDriveFilesCreate _ name _ folder =>
      let f := mk_file (pretty (next_id m)) name folder in
      (file_json f,
       mk_instance (folders m) (files m ++ [f]) (emojis m) (S (next_id m)))
  end.

Definition empty : instance := mk_instance [] [] [] 0.

(** The id of the first folder named [name] under [parent], in listing
    order. *)
Fixpoint lookup (parent : json) (name : string) (fs : list FolderNode)
    : option string :=
  match fs with
  | [] => None
  | f :: rest =>
      if same_id (parentId f) parent && String.eqb (folder_name f) name
      then Some (folder_id f)
      else lookup parent name rest
  end.

(** The folder that a chain of names leads to from [parent], when every
    name of the chain is there. *)
Fixpoint walk (fs : list FolderNode) (parent : json) (segs : list string)
    : option json :=
  match segs with
  | [] => Some parent
  | seg :: rest =>
      match lookup parent seg fs with
      | Some i => walk fs (JStr i) rest
      | None => None
      end
  end.

End Misskey.

(** ** Well-formed reference instances

    Modelled from the spec: the [FolderNode]s of section 3 form a tree and
    are told apart by their ids.  An instance is well formed when its
    folders have distinct ids, none of them an id that is still to be handed
    out, and every parent is one of the folders. *)

Module Quiet.

Import Misskey.

Definition unique_ids (fs : list FolderNode) : Prop :=
  forall f g, In f fs -> In g fs -> folder_id f = folder_id g -> f = g.

Definition well_formed (m : instance) : Prop :=
  unique_ids (folders m) /\
  (forall f j, In f (folders m) -> (next_id m <= j)%nat -> folder_id f <> pretty j) /\
  (forall f p, In f (folders m) -> parentId f = Some p ->
               exists g, In g (folders m) /\ folder_id g = p).

(** [q] is the id of a folder of [m] that is named [name]. *)
Definition named (m : instance) (q : json) (name : string) : Prop :=
  exists f, In f (folders m) /\ q = JStr (folder_id f) /\ folder_name f = name.

(** [q] is the root or a folder of [m]. *)
Definition at_folder (m : instance) (q : json) : Prop :=
  q = JNull \/ exists f, In f (folders m) /\ q = JStr (folder_id f).

(** The record the resolver holds, if any, is the record of the folder [q]
    it stands at, and that folder has no children. *)
Definition fresh_record (m : instance) (q : json) (folder_data : option json)
    : Prop :=
  match folder_data with
  | None => True
  | Some d =>
      exists f, In f (folders m) /\ d = folder_json f /\ q = JStr (folder_id f) /\
                forall g, In g (folders m) -> parentId g <> Some (folder_id f)
  end.

End Quiet.

(** * Properties *)

Section DeriveFacts.

Lemma split_hd sep s :
  List.hd EmptyString (Str.split sep s) = Str.before_first sep s.
Proof.
  induction s as [|c s IH]; simpl; [reflexivity|].
  destruct (Ascii.eqb c sep); [reflexivity|].
  destruct (Str.split sep s) as [|w ws]; simpl in *; congruence.
Qed.

Lemma before_first_take sep s i :
  Str.rfind sep s = Some i ->
  Str.before_first sep (Str.take i s) = Str.before_first sep s.
Proof.
  revert i. induction s as [|c s IH]; intros i; simpl; [discriminate|].
  destruct (Str.rfind sep s) as [j|] eqn:Hj.
  - intros [= <-]. unfold Str.take in *. simpl.
    destruct (Ascii.eqb c sep); [reflexivity|]. f_equal. apply IH. reflexivity.
  - destruct (Ascii.eqb c sep) eqn:Hc; [|discriminate].
    intros [= <-]. reflexivity.
Qed.

Lemma before_first_stem p :
  Str.before_first "." (PathLib.stem p) = Str.before_first "." (PathLib.name p).
Proof.
  unfold PathLib.stem.
  destruct (Str.rfind "." (PathLib.name p)) as [i|] eqn:Hi; [|reflexivity].
  destruct ((0 <? i)%nat && (i <? String.length (PathLib.name p) - 1)%nat);
    [|reflexivity].
  apply before_first_take, Hi.
Qed.

Lemma before_first_no_sep sep s : Str.count sep (Str.before_first sep s) = 0.
Proof.
  induction s as [|c s IH]; simpl; [reflexivity|].
  destruct (Ascii.eqb c sep) eqn:Hc; simpl; [reflexivity|].
  rewrite Hc. exact IH.
Qed.

Lemma count_dot_derived s :
  Str.count "." (Str.replace "-" "_" (Str.lower s)) = Str.count "." s.
Proof.
  induction s as [|c s IH]; simpl; [reflexivity|]. rewrite IH. f_equal.
  destruct c as [[] [] [] [] [] [] [] []]; reflexivity.
Qed.

Lemma count_hyphen_replaced s : Str.count "-" (Str.replace "-" "_" s) = 0.
Proof.
  induction s as [|c s IH]; simpl; [reflexivity|]. rewrite IH.
  destruct (Ascii.eqb c "-") eqn:Hc; simpl; [reflexivity|]. rewrite Hc.
  reflexivity.
Qed.

End DeriveFacts.

(** C3.  Name derivation is a function of the file's base name alone: it is
    the text before the first dot of the name, lower-cased, with every
    hyphen replaced by an underscore, however many dots the name has (so
    the result holds no dot and no hyphen); and the two examples of the
    specification evaluate as stated. *)
Theorem derive_name_before_first_dot :
  (forall p : Path, derive_name p = derive_spec (PathLib.name p)) /\
  (forall p : Path,
      Str.count "." (derive_name p) = 0 /\ Str.count "-" (derive_name p) = 0) /\
  derive_name ["Foo-Bar.png"] = "foo_bar" /\
  derive_name ["a.b.c.png"] = "a" /\
  derive_name ["home"; "emojis"; "a.b.c.png"] = "a".
Proof.
  assert (Hspec : forall p, derive_name p = derive_spec (PathLib.name p)).
  { intros p. unfold derive_name, derive_spec.
    rewrite split_hd, before_first_stem. reflexivity. }
  split; [exact Hspec|].
  split; [|repeat split; reflexivity].
  intros p. rewrite Hspec. unfold derive_spec.
  rewrite count_dot_derived, before_first_no_sep, count_hyphen_replaced.
  split; reflexivity.
Qed.

(** ** Reading a response *)

Lemma is_success_contains data :
  is_success data = true -> Py.contains "error" data = Ok false.
Proof.
  unfold is_success. destruct (Py.contains "error" data) as [[]| |]; congruence.
Qed.

Lemma has_code_inv c data :
  has_code c data = true ->
  exists error code,
    Py.contains "error" data = Ok true /\ Py.getitem data "error" = Ok error /\
    Py.getitem error "code" = Ok code /\ Py.eq_str code c = true.
Proof.
  unfold has_code, error_code.
  destruct (Py.contains "error" data) as [[]| |]; try discriminate.
  destruct (Py.getitem data "error") as [error| |]; simpl; try discriminate.
  destruct (Py.getitem error "code") as [code| |] eqn:Hc; try discriminate.
  intros H. exists error, code. auto.
Qed.

Lemma is_error_except_inv cs data :
  is_error_except cs data = true ->
  exists error code,
    Py.contains "error" data = Ok true /\ Py.getitem data "error" = Ok error /\
    Py.getitem error "code" = Ok code /\
    forallb (fun c => negb (Py.eq_str code c)) cs = true.
Proof.
  unfold is_error_except, error_code.
  destruct (Py.contains "error" data) as [[]| |]; try discriminate.
  destruct (Py.getitem data "error") as [error| |]; simpl; try discriminate.
  destruct (Py.getitem error "code") as [code| |] eqn:Hc; try discriminate.
  intros H. exists error, code. auto.
Qed.

(** ** The rate-limit loops *)

Section Loops.

Context {W : Type}.
Variable respond : request -> W -> json * W.
Variable guess_type : string -> option string.

Lemma after_after (st : state (W := W)) w1 e1 w2 e2 :
  after (after st w1 e1) w2 e2 = after st w2 (e1 ++ e2).
Proof. unfold after. simpl. rewrite <- app_assoc. reflexivity. Qed.

Lemma after_nil (st : state (W := W)) : after st (remote st) [] = st.
Proof. destruct st. unfold after. simpl. rewrite app_nil_r. reflexivity. Qed.

Lemma send_eq req (st : state (W := W)) body w' :
  respond req (remote st) = (body, w') ->
  send respond req st = (Ok body, after st w' [Sent req]).
Proof. intros H. unfold send. rewrite H. reflexivity. Qed.

(** One iteration of a loop, once the body of the response is known. *)
Ltac loop_step H :=
  simpl; unfold bind; rewrite (send_eq _ _ _ _ H); unfold lift; simpl.

Lemma create_drive_folder_success fuel name pid (st : state (W := W)) body w' :
  respond (PostDriveFoldersCreate name pid) (remote st) = (body, w') ->
  is_success body = true ->
  create_drive_folder respond (S fuel) name pid st
  = (Ok body, after st w' [Sent (PostDriveFoldersCreate name pid)]).
Proof.
  intros H Hs. loop_step H. rewrite (is_success_contains _ Hs). reflexivity.
Qed.

Lemma create_drive_folder_error fuel name pid (st : state (W := W)) body w' :
  respond (PostDriveFoldersCreate name pid) (remote st) = (body, w') ->
  is_error_except ["RATE_LIMIT_EXCEEDED"] body = true ->
  create_drive_folder respond (S fuel) name pid st
  = (Raise (RuntimeError body), after st w' [Sent (PostDriveFoldersCreate name pid)]).
Proof.
  intros H He. loop_step H.
  destruct (is_error_except_inv _ _ He) as (error & code & -> & -> & -> & Hc).
  simpl in Hc. rewrite andb_true_r in Hc. apply negb_true_iff in Hc.
  rewrite Hc. reflexivity.
Qed.

Lemma create_drive_folder_retry fuel name pid (st : state (W := W)) body w' :
  respond (PostDriveFoldersCreate name pid) (remote st) = (body, w') ->
  is_rate_limit body = true ->
  create_drive_folder respond (S fuel) name pid st
  = create_drive_folder respond fuel name pid
      (after st w' [Sent (PostDriveFoldersCreate name pid); Slept RATE_LIMIT_WAIT]).
Proof.
  intros H Hr. loop_step H.
  destruct (has_code_inv _ _ Hr) as (error & code & -> & -> & -> & ->).
  unfold sleep. simpl. unfold after. simpl. rewrite <- app_assoc. reflexivity.
Qed.

Lemma create_drive_folder_limited n fuel name pid (st : state (W := W)) w' :
  limited respond n (PostDriveFoldersCreate name pid) (remote st) = Some w' ->
  create_drive_folder respond (n + fuel) name pid st
  = create_drive_folder respond fuel name pid
      (after st w' (retries n (PostDriveFoldersCreate name pid))).
Proof.
  revert st. induction n as [|n IH]; intros st; cbn [limited retries Nat.add].
  - intros [= <-]. rewrite after_nil. reflexivity.
  - destruct (respond _ (remote st)) as [body w1] eqn:H.
    destruct (is_rate_limit body) eqn:Hr; [|discriminate]. intros Hl.
    rewrite (create_drive_folder_retry _ _ _ _ _ _ H Hr).
    rewrite IH by exact Hl. rewrite after_after. reflexivity.
Qed.

Lemma upload_loop_success fuel file pid name mime (st : state (W := W)) body w' :
  respond (PostDriveFilesCreate file name mime pid) (remote st) = (body, w') ->
  is_success body = true ->
  drive_upload_file_loop respond (S fuel) file pid name mime st
  = (Ok body, after st w' [Sent (PostDriveFilesCreate file name mime pid)]).
Proof.
  intros H Hs. loop_step H. rewrite (is_success_contains _ Hs). reflexivity.
Qed.

Lemma upload_loop_error fuel file pid name mime (st : state (W := W)) body w' error :
  respond (PostDriveFilesCreate file name mime pid) (remote st) = (body, w') ->
  is_error_except ["RATE_LIMIT_EXCEEDED"] body = true ->
  Py.getitem body "error" = Ok error ->
  drive_upload_file_loop respond (S fuel) file pid name mime st
  = (Raise (RuntimeError error),
     after st w' [Sent (PostDriveFilesCreate file name mime pid)]).
Proof.
  intros H He Hp. loop_step H.
  destruct (is_error_except_inv _ _ He) as (error' & code & -> & Hg & Hc & Hn).
  rewrite Hg in *. injection Hp as ->. rewrite Hc.
  simpl in Hn. rewrite andb_true_r in Hn. apply negb_true_iff in Hn.
  rewrite Hn. reflexivity.
Qed.

Lemma upload_loop_retry fuel file pid name mime (st : state (W := W)) body w' :
  respond (PostDriveFilesCreate file name mime pid) (remote st) = (body, w') ->
  is_rate_limit body = true ->
  drive_upload_file_loop respond (S fuel) file pid name mime st
  = drive_upload_file_loop respond fuel file pid name mime
      (after st w' [Sent (PostDriveFilesCreate file name mime pid);
                    Slept RATE_LIMIT_WAIT]).
Proof.
  intros H Hr. loop_step H.
  destruct (has_code_inv _ _ Hr) as (error & code & -> & -> & -> & ->).
  unfold sleep. simpl. unfold after. simpl. rewrite <- app_assoc. reflexivity.
Qed.

Lemma upload_loop_limited n fuel file pid name mime (st : state (W := W)) w' :
  limited respond n (PostDriveFilesCreate file name mime pid) (remote st) = Some w' ->
  drive_upload_file_loop respond (n + fuel) file pid name mime st
  = drive_upload_file_loop respond fuel file pid name mime
      (after st w' (retries n (PostDriveFilesCreate file name mime pid))).
Proof.
  revert st. induction n as [|n IH]; intros st; cbn [limited retries Nat.add].
  - intros [= <-]. rewrite after_nil. reflexivity.
  - destruct (respond _ (remote st)) as [body w1] eqn:H.
    destruct (is_rate_limit body) eqn:Hr; [|discriminate]. intros Hl.
    rewrite (upload_loop_retry _ _ _ _ _ _ _ _ H Hr).
    rewrite IH by exact Hl. rewrite after_after. reflexivity.
Qed.

End Loops.

(** ** Events and counters, compositionally *)

Section Frames.

Context {W : Type}.
Variable respond : request -> W -> json * W.
Variable guess_type : string -> option string.

Lemma emits_refl P (st : state (W := W)) : emits P st st.
Proof. exists []. rewrite app_nil_r. split; [reflexivity|constructor]. Qed.

Lemma emits_trans P (st1 st2 st3 : state (W := W)) :
  emits P st1 st2 -> emits P st2 st3 -> emits P st1 st3.
Proof.
  intros (e1 & He1 & HP1) (e2 & He2 & HP2).
  exists (e1 ++ e2). rewrite He2, He1, <- app_assoc.
  split; [reflexivity|]. apply Forall_app. split; assumption.
Qed.

Lemma emits_weaken (P Q : event -> Prop) (st st' : state (W := W)) :
  (forall e, P e -> Q e) -> emits P st st' -> emits Q st st'.
Proof.
  intros HPQ (evs & He & HP). exists evs. split; [exact He|].
  eapply Forall_impl; eauto.
Qed.

Lemma emitting_ret P A (a : A) : emitting (W := W) P (ret a).
Proof. intros st. apply emits_refl. Qed.

Lemma emitting_lift P A (r : result A) : emitting (W := W) P (lift r).
Proof. intros st. apply emits_refl. Qed.

Lemma emitting_bind P A B (m : M W A) (k : A -> M W B) :
  emitting P m -> (forall a, emitting P (k a)) -> emitting P (bind m k).
Proof.
  intros Hm Hk st. unfold bind. specialize (Hm st).
  destruct (m st) as [[a| |] st1]; simpl in *; try exact Hm.
  eapply emits_trans; [exact Hm|apply Hk].
Qed.

Lemma emitting_send (P : event -> Prop) req :
  P (Sent req) -> emitting P (send respond req).
Proof.
  intros HP st. unfold send. destruct (respond req (remote st)) as [body w'].
  exists [Sent req]. split; [reflexivity|]. constructor; [exact HP|constructor].
Qed.

Lemma emitting_sleep (P : event -> Prop) n : P (Slept n) -> emitting (W := W) P (sleep n).
Proof.
  intros HP st. exists [Slept n]. split; [reflexivity|].
  constructor; [exact HP|constructor].
Qed.

Lemma emitting_counter P :
  emitting (W := W) P incr_success /\ emitting (W := W) P incr_skipped /\
  emitting (W := W) P reset_counters.
Proof.
  repeat split; intros st; exists []; simpl; rewrite app_nil_r;
    (split; [reflexivity|constructor]).
Qed.

Lemma same_counters_refl (st : state (W := W)) : same_counters st st.
Proof. split; reflexivity. Qed.

Lemma same_counters_trans (st1 st2 st3 : state (W := W)) :
  same_counters st1 st2 -> same_counters st2 st3 -> same_counters st1 st3.
Proof. intros [H1 H2] [H3 H4]. split; congruence. Qed.

Lemma keeps_ret A (a : A) : keeps_counters (W := W) (ret a).
Proof. intros st. apply same_counters_refl. Qed.

Lemma keeps_lift A (r : result A) : keeps_counters (W := W) (lift r).
Proof. intros st. apply same_counters_refl. Qed.

Lemma keeps_bind A B (m : M W A) (k : A -> M W B) :
  keeps_counters m -> (forall a, keeps_counters (k a)) -> keeps_counters (bind m k).
Proof.
  intros Hm Hk st. unfold bind. specialize (Hm st).
  destruct (m st) as [[a| |] st1]; simpl in *; try exact Hm.
  eapply same_counters_trans; [exact Hm|apply Hk].
Qed.

Lemma keeps_send req : keeps_counters (send respond req).
Proof.
  intros st. unfold send. destruct (respond req (remote st)). split; reflexivity.
Qed.

Lemma keeps_sleep n : keeps_counters (W := W) (sleep n).
Proof. intros st. split; reflexivity. Qed.

End Frames.

(** Peel one [bind], [if] or [match] off a goal about a computation. *)
Ltac frame_step :=
  first
    [ apply emitting_ret | apply emitting_lift | apply keeps_ret | apply keeps_lift
    | apply keeps_send | apply keeps_sleep
    | apply emitting_bind; [|intros ?] | apply keeps_bind; [|intros ?]
    | match goal with
      | |- context [if ?b then _ else _] => destruct b
      | |- context [match ?x with Some _ => _ | None => _ end] => destruct x
      end ].

Section FrameFacts.

Context {W : Type}.
Variable respond : request -> W -> json * W.
Variable guess_type : string -> option string.

Lemma create_drive_folder_keeps fuel name pid :
  keeps_counters (create_drive_folder respond fuel name pid).
Proof.
  induction fuel as [|fuel IH]; simpl; [apply keeps_lift|].
  repeat frame_step; exact IH.
Qed.

Lemma create_drive_folder_emitting fuel name pid :
  emitting (fun e => e = Sent (PostDriveFoldersCreate name pid)
                     \/ e = Slept RATE_LIMIT_WAIT)
           (create_drive_folder respond fuel name pid).
Proof.
  induction fuel as [|fuel IH]; simpl; [apply emitting_lift|].
  apply emitting_bind; [apply emitting_send; left; reflexivity|intros data].
  repeat frame_step; try exact IH; try apply emitting_lift.
  apply emitting_sleep. right. reflexivity.
Qed.

Lemma upload_loop_keeps fuel file pid name mime :
  keeps_counters (drive_upload_file_loop respond fuel file pid name mime).
Proof.
  induction fuel as [|fuel IH]; simpl; [apply keeps_lift|].
  repeat frame_step; exact IH.
Qed.

Lemma upload_loop_emitting fuel file pid name mime :
  emitting (fun e => e = Sent (PostDriveFilesCreate file name mime pid)
                     \/ e = Slept RATE_LIMIT_WAIT)
           (drive_upload_file_loop respond fuel file pid name mime).
Proof.
  induction fuel as [|fuel IH]; simpl; [apply emitting_lift|].
  apply emitting_bind; [apply emitting_send; left; reflexivity|intros data].
  repeat frame_step; try exact IH; try apply emitting_lift.
  apply emitting_sleep. right. reflexivity.
Qed.

Lemma drive_upload_file_keeps fuel file pid name :
  keeps_counters (drive_upload_file respond guess_type fuel file pid name).
Proof. unfold drive_upload_file. repeat frame_step. apply upload_loop_keeps. Qed.

Lemma drive_upload_file_emitting fuel file pid name :
  emitting (fun e => e = Sent (PostDriveFilesCreate file name
                                 (mime_of guess_type name) pid)
                     \/ e = Slept RATE_LIMIT_WAIT)
           (drive_upload_file respond guess_type fuel file pid name).
Proof. unfold drive_upload_file. repeat frame_step. apply upload_loop_emitting. Qed.

Lemma create_drive_folder_path_loop_keeps fuel segs pid fd :
  keeps_counters (create_drive_folder_path_loop respond fuel segs pid fd).
Proof.
  revert pid fd. induction segs as [|seg segs IH]; intros pid fd; simpl;
    [apply keeps_ret|].
  unfold drive_get_folders.
  repeat frame_step; try apply IH. apply create_drive_folder_keeps.
Qed.

Lemma create_drive_folder_path_keeps fuel path :
  keeps_counters (create_drive_folder_path respond fuel path).
Proof.
  unfold create_drive_folder_path, drive_show_folders.
  apply keeps_bind; [apply create_drive_folder_path_loop_keeps|intros [pid [fd|]]];
    simpl; [apply keeps_ret|apply keeps_send].
Qed.

Lemma start_setup_counters fuel drive_path (st : state (W := W)) :
  let st' := snd (start_setup respond fuel drive_path st) in
  success_count st' = 0 /\ skipped_count st' = 0.
Proof.
  unfold start_setup. unfold bind at 1. simpl.
  match goal with
  | |- context [bind ?m ?k ?s] => assert (Hk : keeps_counters (bind m k))
  end.
  { unfold emojis_get_current_list.
    repeat first [apply create_drive_folder_path_keeps | frame_step]. }
  match goal with
  | |- context [bind ?m ?k ?s] => destruct (Hk s) as [H1 H2]
  end.
  simpl in *. auto.
Qed.

End FrameFacts.

Lemma is_error_except_weaken c cs data :
  is_error_except (c :: cs) data = true -> is_error_except cs data = true.
Proof.
  unfold is_error_except.
  destruct (Py.contains "error" data) as [[]| |]; try discriminate.
  destruct (error_code data) as [code| |]; try discriminate.
  simpl. intros H. apply andb_true_iff in H. tauto.
Qed.

Lemma is_remote_error_not_rate_limit data :
  is_remote_error data = true -> is_error_except ["RATE_LIMIT_EXCEEDED"] data = true.
Proof.
  unfold is_remote_error, is_error_except.
  destruct (Py.contains "error" data) as [[]| |]; try discriminate.
  destruct (error_code data) as [code| |]; try discriminate.
  simpl. intros H. apply andb_true_iff in H. destruct H as [-> _]. reflexivity.
Qed.

Lemma is_remote_error_not_duplicate data :
  is_remote_error data = true -> is_error_except ["DUPLICATE_NAME"] data = true.
Proof. apply is_error_except_weaken. Qed.

(** ** One task and the loop over the tasks *)

Section Tasks.

Context {W : Type}.
Variable respond : request -> W -> json * W.
Variable guess_type : string -> option string.

Lemma drive_upload_file_ok n fuel file pid name (st : state (W := W)) w' w'' body i :
  let req := PostDriveFilesCreate file name (mime_of guess_type name) pid in
  limited respond n req (remote st) = Some w' ->
  respond req w' = (body, w'') ->
  is_success body = true ->
  Py.getitem body "id" = Ok i ->
  drive_upload_file respond guess_type (n + S fuel) file pid name st
  = (Ok body, after st w'' (retries n req ++ [Sent req])).
Proof.
  intros req Hl H Hs Hi. subst req. unfold drive_upload_file, bind.
  rewrite (upload_loop_limited _ _ _ _ _ _ _ _ _ Hl).
  erewrite upload_loop_success; [|simpl; exact H|exact Hs].
  rewrite after_after. unfold lift. rewrite Hi. reflexivity.
Qed.

Lemma drive_upload_file_fatal n fuel file pid name (st : state (W := W)) w' w'' body error :
  let req := PostDriveFilesCreate file name (mime_of guess_type name) pid in
  limited respond n req (remote st) = Some w' ->
  respond req w' = (body, w'') ->
  is_error_except ["RATE_LIMIT_EXCEEDED"] body = true ->
  Py.getitem body "error" = Ok error ->
  drive_upload_file respond guess_type (n + S fuel) file pid name st
  = (Raise (RuntimeError error), after st w'' (retries n req ++ [Sent req])).
Proof.
  intros req Hl H He Hp. subst req. unfold drive_upload_file, bind.
  rewrite (upload_loop_limited _ _ _ _ _ _ _ _ _ Hl).
  erewrite upload_loop_error; [|simpl; exact H|exact He|exact Hp].
  rewrite after_after. reflexivity.
Qed.

Variables (fuel : nat) (emoji_dict : gmap string json) (folder_id : json)
          (o : options).

Lemma upload_one_skip p (st : state (W := W)) :
  in_index (derive_name p) emoji_dict = true ->
  upload_one respond guess_type fuel emoji_dict folder_id o p st
  = (Ok tt, skip_counted st).
Proof. intros H. unfold upload_one. rewrite H. reflexivity. Qed.

Lemma upload_one_upload_raised p (st st1 : state (W := W)) e :
  in_index (derive_name p) emoji_dict = false ->
  drive_upload_file respond guess_type fuel p folder_id (PathLib.name p) st
  = (Raise e, st1) ->
  upload_one respond guess_type fuel emoji_dict folder_id o p st = (Raise e, st1).
Proof. intros H Hu. unfold upload_one, bind. rewrite H, Hu. reflexivity. Qed.

(** The task up to the response to its emoji-creation request. *)
Ltac to_create H Hu Hid Hr :=
  unfold add_request in Hr;
  unfold upload_one, bind; rewrite H, Hu; unfold lift; rewrite Hid;
  unfold emoji_add; rewrite (send_eq _ _ _ _ _ Hr).

Lemma upload_one_duplicate p (st st1 : state (W := W)) file_data file_id body w2 :
  in_index (derive_name p) emoji_dict = false ->
  drive_upload_file respond guess_type fuel p folder_id (PathLib.name p) st
  = (Ok file_data, st1) ->
  Py.getitem file_data "id" = Ok file_id ->
  respond (add_request o p file_id) (remote st1) = (body, w2) ->
  is_duplicate body = true ->
  upload_one respond guess_type fuel emoji_dict folder_id o p st
  = (Ok tt, skip_counted (after st1 w2 [Sent (add_request o p file_id)])).
Proof.
  intros H Hu Hid Hr Hd. to_create H Hu Hid Hr.
  destruct (has_code_inv _ _ Hd) as (error & code & -> & -> & -> & ->).
  reflexivity.
Qed.

Lemma upload_one_create_error p (st st1 : state (W := W)) file_data file_id body w2 error :
  in_index (derive_name p) emoji_dict = false ->
  drive_upload_file respond guess_type fuel p folder_id (PathLib.name p) st
  = (Ok file_data, st1) ->
  Py.getitem file_data "id" = Ok file_id ->
  respond (add_request o p file_id) (remote st1) = (body, w2) ->
  is_error_except ["DUPLICATE_NAME"] body = true ->
  Py.getitem body "error" = Ok error ->
  upload_one respond guess_type fuel emoji_dict folder_id o p st
  = (Raise (RuntimeError error), after st1 w2 [Sent (add_request o p file_id)]).
Proof.
  intros H Hu Hid Hr He Hp. to_create H Hu Hid Hr.
  destruct (is_error_except_inv _ _ He) as (error' & code & -> & Hg & Hc & Hn).
  rewrite Hg in *. injection Hp as ->. rewrite Hc.
  simpl in Hn. rewrite andb_true_r in Hn. apply negb_true_iff in Hn.
  rewrite Hn. reflexivity.
Qed.

Lemma upload_one_created p (st st1 : state (W := W)) file_data file_id body w2 i :
  in_index (derive_name p) emoji_dict = false ->
  drive_upload_file respond guess_type fuel p folder_id (PathLib.name p) st
  = (Ok file_data, st1) ->
  Py.getitem file_data "id" = Ok file_id ->
  respond (add_request o p file_id) (remote st1) = (body, w2) ->
  is_success body = true ->
  Py.getitem body "id" = Ok i ->
  upload_one respond guess_type fuel emoji_dict folder_id o p st
  = (Ok tt,
     mk_state w2 (events st1 ++ [Sent (add_request o p file_id)])
              (S (success_count st1)) (skipped_count st1)).
Proof.
  intros H Hu Hid Hr Hs Hi. to_create H Hu Hid Hr.
  rewrite (is_success_contains _ Hs). simpl. rewrite Hi. reflexivity.
Qed.

(** What one task does to the counters, however it ends. *)
Lemma upload_one_counts p (st : state (W := W)) :
  let r := upload_one respond guess_type fuel emoji_dict folder_id o p st in
  let n := (success_count st + skipped_count st)%nat in
  let n' := (success_count (snd r) + skipped_count (snd r))%nat in
  (n <= n' <= S n)%nat /\
  (fst r = Ok tt ->
   (success_count (snd r) = S (success_count st) /\
    skipped_count (snd r) = skipped_count st) \/
   (success_count (snd r) = success_count st /\
    skipped_count (snd r) = S (skipped_count st))).
Proof.
  unfold upload_one.
  destruct (in_index (derive_name p) emoji_dict); simpl; [split; [lia|auto]|].
  unfold bind.
  pose proof (drive_upload_file_keeps respond guess_type fuel p folder_id
                (PathLib.name p) st) as [Hs Hk].
  destruct (drive_upload_file respond guess_type fuel p folder_id
              (PathLib.name p) st) as [[file_data| |] st1]; simpl in *;
    try (split; [lia|discriminate]).
  unfold lift.
  destruct (Py.getitem file_data "id") as [file_id| |]; simpl;
    try (split; [lia|discriminate]).
  unfold emoji_add, send.
  destruct (respond _ (remote st1)) as [body w2]; simpl.
  destruct (Py.contains "error" body) as [[]| |]; simpl;
    try (split; [lia|discriminate]).
  - destruct (Py.getitem body "error") as [error| |]; simpl;
      try (split; [lia|discriminate]).
    destruct (Py.getitem error "code") as [code| |]; simpl;
      try (split; [lia|discriminate]).
    destruct (Py.eq_str code "DUPLICATE_NAME"); simpl;
      [split; [lia|intros _; right; lia]|split; [lia|discriminate]].
  - destruct (Py.getitem body "id") as [i| |]; simpl;
      [split; [lia|intros _; left; lia]| |]; (split; [lia|discriminate]).
Qed.

(** The requests of one task that passes the pre-check. *)
Lemma upload_one_emitting p :
  in_index (derive_name p) emoji_dict = false ->
  emitting (task_event p folder_id)
           (upload_one respond guess_type fuel emoji_dict folder_id o p).
Proof.
  intros H. unfold upload_one. rewrite H.
  apply emitting_bind.
  { intros st. eapply emits_weaken; [|apply drive_upload_file_emitting].
    intros e [->| ->]; simpl; auto. }
  intros file_data. apply emitting_bind; [apply emitting_lift|intros file_id].
  apply emitting_bind; [apply emitting_send; reflexivity|intros body].
  apply emitting_bind; [apply emitting_lift|intros []].
  - apply emitting_bind; [apply emitting_lift|intros error].
    apply emitting_bind; [apply emitting_lift|intros code].
    destruct (Py.eq_str code "DUPLICATE_NAME"); [apply emitting_counter|].
    apply emitting_bind; [apply emitting_lift|intros error'; apply emitting_lift].
  - apply emitting_bind; [apply emitting_counter|intros _].
    apply emitting_bind; [apply emitting_lift|intros _; apply emitting_ret].
Qed.

Lemma start_loop_cons_ok p rest (st st1 : state (W := W)) :
  upload_one respond guess_type fuel emoji_dict folder_id o p st = (Ok tt, st1) ->
  start_loop respond guess_type fuel emoji_dict folder_id o (p :: rest) st
  = start_loop respond guess_type fuel emoji_dict folder_id o rest st1.
Proof. intros H. simpl. unfold bind. rewrite H. reflexivity. Qed.

Lemma start_loop_cons_raise p rest (st st1 : state (W := W)) e :
  upload_one respond guess_type fuel emoji_dict folder_id o p st = (Raise e, st1) ->
  start_loop respond guess_type fuel emoji_dict folder_id o (p :: rest) st
  = (Raise e, st1).
Proof. intros H. simpl. unfold bind. rewrite H. reflexivity. Qed.

Lemma start_loop_app done rest (st : state (W := W)) :
  start_loop respond guess_type fuel emoji_dict folder_id o (done ++ rest) st
  = bind (start_loop respond guess_type fuel emoji_dict folder_id o done)
         (fun _ => start_loop respond guess_type fuel emoji_dict folder_id o rest) st.
Proof.
  revert st. induction done as [|p done IH]; intros st; simpl; [reflexivity|].
  unfold bind in *.
  destruct (upload_one respond guess_type fuel emoji_dict folder_id o p st)
    as [[[]| |] st1]; try reflexivity.
  apply IH.
Qed.

(** What the loop does to the counters, however it ends. *)
Lemma start_loop_counts tasks (st : state (W := W)) :
  let r := start_loop respond guess_type fuel emoji_dict folder_id o tasks st in
  let n := (success_count st + skipped_count st)%nat in
  let n' := (success_count (snd r) + skipped_count (snd r))%nat in
  (n <= n' <= n + length tasks)%nat /\
  (fst r = Ok tt -> n' = (n + length tasks)%nat).
Proof.
  revert st. induction tasks as [|p tasks IH]; intros st; simpl; [lia|].
  unfold bind.
  pose proof (upload_one_counts p st) as [Hb Hok]. simpl in Hb, Hok.
  destruct (upload_one respond guess_type fuel emoji_dict folder_id o p st)
    as [[[]| |] st1]; simpl in *; try (split; [lia|discriminate]).
  specialize (IH st1). simpl in IH. destruct IH as [IHb IHok].
  destruct (Hok eq_refl) as [[? ?]|[? ?]]; split; try lia; intros Hr;
    specialize (IHok Hr); lia.
Qed.

End Tasks.

(** ** The rate-limited request executor *)

(** C5.  Folder creation and file upload share one behaviour: after any
    number [n] of rate-limit answers, each followed by one sleep of
    [RATE_LIMIT_WAIT] = 60 and a repetition of the same request, a success
    body is returned as it is with no further request, and any other error
    is raised at once with the remote payload (the whole body for folder
    creation, its ["error"] member for upload).  No count of retries makes
    the loop give up: after [n] rate-limit answers it is still retrying. *)
Theorem rate_limited_requests :
  forall (W : Type) (respond : request -> W -> json * W)
         (guess_type : string -> option string)
         (n fuel : nat) (st : state (W := W)) (req : request) (w' w'' : W)
         (body : json),
    limited respond n req (remote st) = Some w' ->
    respond req w' = (body, w'') ->
    let st' := after st w'' (retries n req ++ [Sent req]) in
    RATE_LIMIT_WAIT = 60 /\
    (forall name parent_id,
        req = PostDriveFoldersCreate name parent_id ->
        let run := create_drive_folder respond (n + S fuel) name parent_id st in
        (is_success body = true -> run = (Ok body, st')) /\
        (is_error_except ["RATE_LIMIT_EXCEEDED"] body = true ->
         run = (Raise (RuntimeError body), st')) /\
        create_drive_folder respond n name parent_id st
        = (OutOfFuel, after st w' (retries n req))) /\
    (forall file file_name folder_id,
        req = PostDriveFilesCreate file file_name (mime_of guess_type file_name)
                                   folder_id ->
        let run := drive_upload_file respond guess_type (n + S fuel) file
                     folder_id file_name st in
        (is_success body = true ->
         forall i, Py.getitem body "id" = Ok i -> run = (Ok body, st')) /\
        (is_error_except ["RATE_LIMIT_EXCEEDED"] body = true ->
         forall error, Py.getitem body "error" = Ok error ->
                       run = (Raise (RuntimeError error), st')) /\
        drive_upload_file respond guess_type n file folder_id file_name st
        = (OutOfFuel, after st w' (retries n req))).
Proof.
  intros W respond guess_type n fuel st req w' w'' body Hl Hr st'.
  split; [reflexivity|]. split.
  - intros name pid ->. cbv zeta.
    rewrite (create_drive_folder_limited _ _ _ _ _ _ _ Hl).
    repeat split.
    + intros Hs. erewrite create_drive_folder_success; [|simpl; exact Hr|exact Hs].
      rewrite after_after. reflexivity.
    + intros He. erewrite create_drive_folder_error; [|simpl; exact Hr|exact He].
      rewrite after_after. reflexivity.
    + rewrite <- (Nat.add_0_r n) at 1.
      rewrite (create_drive_folder_limited _ _ _ _ _ _ _ Hl). reflexivity.
  - intros file file_name pid ->. cbv zeta. repeat split.
    + intros Hs i Hi. exact (drive_upload_file_ok _ _ _ _ _ _ _ _ _ _ _ _ Hl Hr Hs Hi).
    + intros He error Hp.
      exact (drive_upload_file_fatal _ _ _ _ _ _ _ _ _ _ _ _ Hl Hr He Hp).
    + unfold drive_upload_file, bind. rewrite <- (Nat.add_0_r n) at 1.
      rewrite (upload_loop_limited _ _ _ _ _ _ _ _ _ Hl). reflexivity.
Qed.

(** Two rate-limit answers, then the record of the new folder. *)
Lemma rate_limited_requests_witness :
  create_drive_folder Scripted.respond 3 "emojis" JNull
    (Scripted.init [Scripted.error "RATE_LIMIT_EXCEEDED";
                    Scripted.error "RATE_LIMIT_EXCEEDED";
                    Scripted.record "9" "emojis"])
  = (Ok (Scripted.record "9" "emojis"),
     mk_state []
       [Sent (PostDriveFoldersCreate "emojis" JNull); Slept 60;
        Sent (PostDriveFoldersCreate "emojis" JNull); Slept 60;
        Sent (PostDriveFoldersCreate "emojis" JNull)] 0 0).
Proof.
  pose proof (rate_limited_requests Scripted.world Scripted.respond Scripted.guess_type
                2 0
                (Scripted.init [Scripted.error "RATE_LIMIT_EXCEEDED";
                                Scripted.error "RATE_LIMIT_EXCEEDED";
                                Scripted.record "9" "emojis"])
                (PostDriveFoldersCreate "emojis" JNull)
                [Scripted.record "9" "emojis"] [] (Scripted.record "9" "emojis")
                eq_refl eq_refl) as H.
  destruct H as (_ & H & _).
  destruct (H "emojis" JNull eq_refl) as (Hs & _).
  exact (Hs eq_refl).
Defined.

(** ** The remote state index *)

Lemma emoji_index_lookup emojis acc idx s :
  emoji_index emojis acc = Ok idx ->
  in_index s idx = true <->
  in_index s acc = true \/
  exists emoji, In emoji emojis /\ Py.getitem emoji "name" = Ok (JStr s).
Proof.
  revert acc. induction emojis as [|e emojis IH]; intros acc; simpl.
  - intros [= <-]. split; [auto|]. intros [H|(x & [] & _)]. exact H.
  - destruct (Py.getitem e "name") as [n| |] eqn:Hn; simpl; try discriminate.
    assert (Hskip : emoji_index emojis acc = Ok idx ->
                    (forall t, n <> JStr t) ->
                    in_index s idx = true <->
                    in_index s acc = true \/
                    exists emoji, (e = emoji \/ In emoji emojis) /\
                                  Py.getitem emoji "name" = Ok (JStr s)).
    { intros H Hne. rewrite (IH _ H). split.
      - intros [Ha|(x & Hx & Hg)]; [auto|]. right. exists x. auto.
      - intros [Ha|(x & [<-|Hx] & Hg)]; [auto| |].
        + rewrite Hg in Hn. injection Hn as <-. exfalso. apply (Hne s eq_refl).
        + right. exists x. auto. }
    destruct n as [|b|z|t|l|f]; try discriminate;
      try (intros H; apply (Hskip H); discriminate).
    intros H. rewrite (IH _ H). unfold in_index.
    rewrite !bool_decide_eq_true. split.
    + intros [Ha|(x & Hx & Hg)].
      * destruct (decide (t = s)) as [->|Hts].
        -- right. exists e. auto.
        -- left. rewrite lookup_insert_ne in Ha by exact Hts. exact Ha.
      * right. exists x. auto.
    + intros [Ha|(x & [<-|Hx] & Hg)].
      * left. destruct (decide (t = s)) as [->|Hts].
        -- rewrite lookup_insert_eq. eauto.
        -- rewrite lookup_insert_ne by exact Hts. exact Ha.
      * rewrite Hg in Hn. injection Hn as <-. left.
        rewrite lookup_insert_eq. eauto.
      * right. exists x. auto.
Qed.

(** ** The per-task state machine *)

(** C9.  A task whose derived name is in the index ends as a skip: the
    skip counter goes up by one, the success counter, the remote and the
    events are untouched (no upload and no emoji-creation request is sent),
    and the loop goes on with the next task. *)
Theorem indexed_name_is_skipped :
  forall (W : Type) (respond : request -> W -> json * W)
         (guess_type : string -> option string) (fuel : nat)
         (emoji_dict : gmap string json) (folder_id : json) (o : options)
         (p : Path) (rest : list Path) (st : state (W := W)),
    in_index (derive_name p) emoji_dict = true ->
    let st' := snd (upload_one respond guess_type fuel emoji_dict folder_id o p st) in
    upload_one respond guess_type fuel emoji_dict folder_id o p st = (Ok tt, st') /\
    remote st' = remote st /\
    events st' = events st /\
    success_count st' = success_count st /\
    skipped_count st' = S (skipped_count st) /\
    start_loop respond guess_type fuel emoji_dict folder_id o (p :: rest) st
    = start_loop respond guess_type fuel emoji_dict folder_id o rest st'.
Proof.
  intros W respond guess_type fuel emoji_dict folder_id o p rest st H st'.
  subst st'. rewrite (upload_one_skip _ _ _ _ _ _ _ _ H). simpl.
  repeat split.
  apply start_loop_cons_ok, upload_one_skip, H.
Qed.

(** The index holds "dog"; the task is [dog.png]. *)
Lemma indexed_name_is_skipped_witness :
  upload_one Scripted.respond Scripted.guess_type 1
    (<["dog" := Scripted.record "e0" "dog"]> ∅) JNull Scripted.no_options
    ["dog.png"] (Scripted.init [])
  = (Ok tt, mk_state [] [] 0 1).
Proof.
  exact (proj1 (indexed_name_is_skipped Scripted.world Scripted.respond
                  Scripted.guess_type 1 (<["dog" := Scripted.record "e0" "dog"]> ∅)
                  JNull Scripted.no_options ["dog.png"] [] (Scripted.init [])
                  eq_refl)).
Defined.

(** C6.  A task that passed the pre-check and whose file was uploaded, but
    whose emoji-creation response carries the code [DUPLICATE_NAME], ends as
    a skip: the skip counter goes up by one, the success counter stays,
    nothing is raised, the creation request is the last request of the task
    (the uploaded file is not removed), and the loop goes on with the next
    task. *)
Theorem duplicate_at_create_is_skipped :
  forall (W : Type) (respond : request -> W -> json * W)
         (guess_type : string -> option string) (fuel : nat)
         (emoji_dict : gmap string json) (folder_id : json) (o : options)
         (p : Path) (rest : list Path) (st st1 : state (W := W))
         (file_data file_id body : json) (w2 : W),
    in_index (derive_name p) emoji_dict = false ->
    drive_upload_file respond guess_type fuel p folder_id (PathLib.name p) st
    = (Ok file_data, st1) ->
    Py.getitem file_data "id" = Ok file_id ->
    respond (add_request o p file_id) (remote st1) = (body, w2) ->
    is_duplicate body = true ->
    let st2 := snd (upload_one respond guess_type fuel emoji_dict folder_id o p st) in
    upload_one respond guess_type fuel emoji_dict folder_id o p st = (Ok tt, st2) /\
    skipped_count st2 = S (skipped_count st) /\
    success_count st2 = success_count st /\
    remote st2 = w2 /\
    events st2 = events st1 ++ [Sent (add_request o p file_id)] /\
    start_loop respond guess_type fuel emoji_dict folder_id o (p :: rest) st
    = start_loop respond guess_type fuel emoji_dict folder_id o rest st2.
Proof.
  intros W respond guess_type fuel emoji_dict folder_id o p rest st st1
         file_data file_id body w2 H Hu Hid Hr Hd st2.
  pose proof (upload_one_duplicate _ _ _ _ _ _ _ _ _ _ _ _ _ H Hu Hid Hr Hd) as Hone.
  pose proof (drive_upload_file_keeps respond guess_type fuel p folder_id
                (PathLib.name p) st) as [Hs Hk].
  rewrite Hu in Hs, Hk. simpl in Hs, Hk.
  subst st2. rewrite Hone. simpl. repeat split; try congruence.
  apply start_loop_cons_ok, Hone.
Qed.

(** The file of [dog.png] is uploaded, then the creation is rejected as a
    duplicate; [cat.png] is the next task. *)
Lemma duplicate_at_create_is_skipped_witness :
  upload_one Scripted.respond Scripted.guess_type 1 ∅ JNull Scripted.no_options
    ["dog.png"]
    (Scripted.init [Scripted.record "f1" "dog.png"; Scripted.error "DUPLICATE_NAME"])
  = (Ok tt,
     mk_state []
       [Sent (PostDriveFilesCreate ["dog.png"] "dog.png" "image/png" JNull);
        Sent (PostEmojiAdd "dog" (JStr "f1") "" "" false false)] 0 1).
Proof.
  exact (proj1 (duplicate_at_create_is_skipped Scripted.world Scripted.respond
                  Scripted.guess_type 1 ∅ JNull Scripted.no_options ["dog.png"]
                  [["cat.png"]]
                  (Scripted.init [Scripted.record "f1" "dog.png";
                                  Scripted.error "DUPLICATE_NAME"])
                  (mk_state [Scripted.error "DUPLICATE_NAME"]
                     [Sent (PostDriveFilesCreate ["dog.png"] "dog.png" "image/png"
                              JNull)] 0 0)
                  (Scripted.record "f1" "dog.png") (JStr "f1")
                  (Scripted.error "DUPLICATE_NAME") []
                  eq_refl eq_refl eq_refl eq_refl eq_refl)).
Defined.

Lemma getitem_not_out_of_fuel v k : Py.getitem v k <> OutOfFuel.
Proof. destruct v; simpl; try discriminate. destruct (Py.assoc k fields); discriminate. Qed.

Lemma contains_not_out_of_fuel k v : Py.contains k v <> OutOfFuel.
Proof. destruct v; discriminate. Qed.

(** An error body whose code is not the one the step recovers from ends
    the step with an exception, readable code or not. *)
Lemma upload_error_raises {W : Type} (respond : request -> W -> json * W)
    (guess_type : string -> option string) n fuel file pid name
    (st : state (W := W)) w' w'' body :
  let req := PostDriveFilesCreate file name (mime_of guess_type name) pid in
  limited respond n req (remote st) = Some w' ->
  respond req w' = (body, w'') ->
  Py.contains "error" body = Ok true ->
  is_rate_limit body = false ->
  exists e,
    drive_upload_file respond guess_type (n + S fuel) file pid name st
    = (Raise e, after st w'' (retries n req ++ [Sent req])).
Proof.
  intros req Hl Hr Hc Hn. subst req. unfold drive_upload_file, bind.
  rewrite (upload_loop_limited _ _ _ _ _ _ _ _ _ Hl).
  cbn [drive_upload_file_loop]. unfold bind.
  erewrite send_eq; [|simpl; exact Hr]. rewrite after_after.
  unfold lift. rewrite Hc.
  unfold is_rate_limit, has_code, error_code in Hn. rewrite Hc in Hn.
  destruct (Py.getitem body "error") as [error| |] eqn:He; simpl in Hn |- *.
  - destruct (Py.getitem error "code") as [code| |] eqn:Hk; simpl.
    + rewrite Hn. simpl. eauto.
    + eauto.
    + destruct (getitem_not_out_of_fuel _ _ Hk).
  - eauto.
  - destruct (getitem_not_out_of_fuel _ _ He).
Qed.

Lemma create_error_raises {W : Type} (respond : request -> W -> json * W)
    (guess_type : string -> option string) fuel emoji_dict folder_id o p
    (st st1 : state (W := W)) file_data file_id body w2 :
  in_index (derive_name p) emoji_dict = false ->
  drive_upload_file respond guess_type fuel p folder_id (PathLib.name p) st
  = (Ok file_data, st1) ->
  Py.getitem file_data "id" = Ok file_id ->
  respond (add_request o p file_id) (remote st1) = (body, w2) ->
  Py.contains "error" body = Ok true ->
  is_duplicate body = false ->
  exists e,
    upload_one respond guess_type fuel emoji_dict folder_id o p st
    = (Raise e, after st1 w2 [Sent (add_request o p file_id)]).
Proof.
  intros H Hu Hid Hr Hc Hn. unfold add_request in Hr.
  unfold upload_one, bind. rewrite H, Hu. unfold lift. rewrite Hid.
  unfold emoji_add. rewrite (send_eq _ _ _ _ _ Hr). rewrite Hc.
  unfold is_duplicate, has_code, error_code in Hn. rewrite Hc in Hn.
  destruct (Py.getitem body "error") as [error| |] eqn:He; simpl in Hn |- *.
  - destruct (Py.getitem error "code") as [code| |] eqn:Hk; simpl.
    + rewrite Hn. simpl. eauto.
    + eauto.
    + destruct (getitem_not_out_of_fuel _ _ Hk).
  - eauto.
  - destruct (getitem_not_out_of_fuel _ _ He).
Qed.

Lemma start_raised {W : Type} (respond : request -> W -> json * W)
    (guess_type : string -> option string) fuel tasks drive_path o
    (st0 st st' : state (W := W)) setup e :
  start_setup respond fuel drive_path st0 = (Ok setup, st) ->
  start_loop respond guess_type fuel (fst setup) (snd setup) o tasks st
  = (Raise e, st') ->
  start respond guess_type fuel tasks drive_path o st0 = (Raise e, st').
Proof. intros Hs Hl. unfold start, bind. rewrite Hs, Hl. reflexivity. Qed.

(** C7.  An error body that is neither a rate limit nor a duplicate name
    ends the run at once with [RuntimeError] carrying the remote ["error"]
    member: at the upload step (after any number of rate-limit retries) and
    at the emoji-creation step.  The final state is the one right after the
    failing response, whatever tasks were still to come.  An error body
    whose code cannot be read ends the task with an exception as well.
    When the failing task comes after tasks that were completed, the loop
    over the whole list ends with the exception and the state of the
    failing task, and so does [start], whose setup precedes the loop. *)
Theorem remote_error_aborts_run :
  forall (W : Type) (respond : request -> W -> json * W)
         (guess_type : string -> option string)
         (emoji_dict : gmap string json) (folder_id : json) (o : options)
         (p : Path) (rest : list Path) (st : state (W := W)),
    in_index (derive_name p) emoji_dict = false ->
    (forall n fuel w' w'' body error,
        let req := upload_request guess_type p folder_id in
        limited respond n req (remote st) = Some w' ->
        respond req w' = (body, w'') ->
        is_remote_error body = true ->
        Py.getitem body "error" = Ok error ->
        start_loop respond guess_type (n + S fuel) emoji_dict folder_id o
                   (p :: rest) st
        = (Raise (RuntimeError error), after st w'' (retries n req ++ [Sent req]))) /\
    (forall fuel st1 file_data file_id body w2 error,
        drive_upload_file respond guess_type fuel p folder_id (PathLib.name p) st
        = (Ok file_data, st1) ->
        Py.getitem file_data "id" = Ok file_id ->
        respond (add_request o p file_id) (remote st1) = (body, w2) ->
        is_remote_error body = true ->
        Py.getitem body "error" = Ok error ->
        start_loop respond guess_type fuel emoji_dict folder_id o (p :: rest) st
        = (Raise (RuntimeError error),
           after st1 w2 [Sent (add_request o p file_id)])) /\
    (forall n fuel w' w'' body,
        let req := upload_request guess_type p folder_id in
        limited respond n req (remote st) = Some w' ->
        respond req w' = (body, w'') ->
        Py.contains "error" body = Ok true ->
        is_rate_limit body = false ->
        exists e,
          start_loop respond guess_type (n + S fuel) emoji_dict folder_id o
                     (p :: rest) st
          = (Raise e, after st w'' (retries n req ++ [Sent req]))) /\
    (forall fuel st1 file_data file_id body w2,
        drive_upload_file respond guess_type fuel p folder_id (PathLib.name p) st
        = (Ok file_data, st1) ->
        Py.getitem file_data "id" = Ok file_id ->
        respond (add_request o p file_id) (remote st1) = (body, w2) ->
        Py.contains "error" body = Ok true ->
        is_duplicate body = false ->
        exists e,
          start_loop respond guess_type fuel emoji_dict folder_id o (p :: rest) st
          = (Raise e, after st1 w2 [Sent (add_request o p file_id)])) /\
    (forall fuel done drive_path (st0 st_loop st' : state (W := W)) e,
        start_loop respond guess_type fuel emoji_dict folder_id o done st_loop
        = (Ok tt, st) ->
        start_loop respond guess_type fuel emoji_dict folder_id o (p :: rest) st
        = (Raise e, st') ->
        start_loop respond guess_type fuel emoji_dict folder_id o
                   (done ++ p :: rest) st_loop
        = (Raise e, st') /\
        (start_setup respond fuel drive_path st0
         = (Ok (emoji_dict, folder_id), st_loop) ->
         start respond guess_type fuel (done ++ p :: rest) drive_path o st0
         = (Raise e, st'))).
Proof.
  intros W respond guess_type emoji_dict folder_id o p rest st H.
  split; [|split; [|split; [|split]]].
  - intros n fuel w' w'' body error req Hl Hr He Hp.
    apply start_loop_cons_raise, upload_one_upload_raised; [exact H|].
    apply (drive_upload_file_fatal respond guess_type n fuel p folder_id
             (PathLib.name p) st w' w'' body error Hl Hr);
      [apply is_remote_error_not_rate_limit, He|exact Hp].
  - intros fuel st1 file_data file_id body w2 error Hu Hid Hr He Hp.
    apply start_loop_cons_raise.
    apply (upload_one_create_error respond guess_type fuel emoji_dict folder_id o p
             st st1 file_data file_id body w2 error H Hu Hid Hr);
      [apply is_remote_error_not_duplicate, He|exact Hp].
  - intros n fuel w' w'' body req Hl Hr Hc Hn.
    destruct (upload_error_raises respond guess_type n fuel p folder_id
                (PathLib.name p) st w' w'' body Hl Hr Hc Hn) as [e He].
    exists e. apply start_loop_cons_raise, upload_one_upload_raised; [exact H|exact He].
  - intros fuel st1 file_data file_id body w2 Hu Hid Hr Hc Hn.
    destruct (create_error_raises respond guess_type fuel emoji_dict folder_id o p
                st st1 file_data file_id body w2 H Hu Hid Hr Hc Hn) as [e He].
    exists e. apply start_loop_cons_raise, He.
  - intros fuel done drive_path st0 st_loop st' e Hd Hl.
    assert (Hall : start_loop respond guess_type fuel emoji_dict folder_id o
                     (done ++ p :: rest) st_loop = (Raise e, st')).
    { rewrite start_loop_app. unfold bind. rewrite Hd. exact Hl. }
    split; [exact Hall|]. intros Hs.
    exact (start_raised respond guess_type fuel (done ++ p :: rest) drive_path o
             st0 st_loop st' (emoji_dict, folder_id) e Hs Hall).
Qed.

(** [cat.png] is uploaded and created; the upload of [dog.png] is then
    answered with an error that is not a rate limit: the run ends there and
    [eel.png] is never reached. *)
Lemma remote_error_aborts_run_witness :
  start Scripted.respond Scripted.guess_type 1
    ([["cat.png"]] ++ ["dog.png"] :: [["eel.png"]]) "" Scripted.no_options
    (Scripted.init [JObj [("emojis", JArr [])];
                    Scripted.record "f1" "cat.png"; Scripted.record "e1" "cat";
                    Scripted.error "NO_SUCH_FOLDER";
                    Scripted.record "f3" "eel.png"])
  = (Raise (RuntimeError (JObj [("code", JStr "NO_SUCH_FOLDER");
                                ("message", JStr "...")])),
     mk_state [Scripted.record "f3" "eel.png"]
       [Sent GetEmojis;
        Sent (PostDriveFilesCreate ["cat.png"] "cat.png" "image/png" JNull);
        Sent (PostEmojiAdd "cat" (JStr "f1") "" "" false false);
        Sent (PostDriveFilesCreate ["dog.png"] "dog.png" "image/png" JNull)] 1 0).
Proof.
  pose (st := mk_state (W := Scripted.world)
                [Scripted.error "NO_SUCH_FOLDER"; Scripted.record "f3" "eel.png"]
                [Sent GetEmojis;
                 Sent (PostDriveFilesCreate ["cat.png"] "cat.png" "image/png" JNull);
                 Sent (PostEmojiAdd "cat" (JStr "f1") "" "" false false)] 1 0).
  pose proof (remote_error_aborts_run Scripted.world Scripted.respond
                Scripted.guess_type ∅ JNull Scripted.no_options ["dog.png"]
                [["eel.png"]] st eq_refl) as (Hupload & _ & _ & _ & Hprefix).
  pose proof (Hupload 0 0 _ [Scripted.record "f3" "eel.png"]
                (Scripted.error "NO_SUCH_FOLDER")
                (JObj [("code", JStr "NO_SUCH_FOLDER"); ("message", JStr "...")])
                eq_refl eq_refl eq_refl eq_refl) as Hfail.
  exact (proj2 (Hprefix 1 [["cat.png"]] ""
                  (Scripted.init [JObj [("emojis", JArr [])];
                                  Scripted.record "f1" "cat.png";
                                  Scripted.record "e1" "cat";
                                  Scripted.error "NO_SUCH_FOLDER";
                                  Scripted.record "f3" "eel.png"])
                  (mk_state [Scripted.record "f1" "cat.png";
                             Scripted.record "e1" "cat";
                             Scripted.error "NO_SUCH_FOLDER";
                             Scripted.record "f3" "eel.png"]
                     [Sent GetEmojis] 0 0)
                  _ _ eq_refl Hfail)
           eq_refl).
Defined.

Section Names.

Context {W : Type}.
Variable respond : request -> W -> json * W.
Variable guess_type : string -> option string.

Lemma bind_assoc A B C (m : M W A) (f : A -> M W B) (g : B -> M W C) st :
  bind (bind m f) g st = bind m (fun a => bind (f a) g) st.
Proof. unfold bind. destruct (m st) as [[a| |] st1]; reflexivity. Qed.

Lemma emitting_weaken A (P Q : event -> Prop) (m : M W A) :
  (forall e, P e -> Q e) -> emitting P m -> emitting Q m.
Proof. intros HPQ Hm st. eapply emits_weaken; [exact HPQ|apply Hm]. Qed.

Lemma upload_event_is_task_event p folder_id e :
  e = Sent (upload_request guess_type p folder_id) \/ e = Slept RATE_LIMIT_WAIT ->
  task_event p folder_id e.
Proof. intros [->| ->]; simpl; auto. Qed.

(** With at least one iteration allowed, the first thing a task that passed
    the pre-check does is to send its upload request. *)
Lemma upload_one_first_request fuel emoji_dict folder_id o p (st : state (W := W)) :
  in_index (derive_name p) emoji_dict = false ->
  exists evs,
    events (snd (upload_one respond guess_type (S fuel) emoji_dict folder_id o p st))
    = events st ++ Sent (upload_request guess_type p folder_id) :: evs /\
    Forall (task_event p folder_id) evs.
Proof.
  intros H. unfold upload_one. rewrite H. unfold drive_upload_file.
  cbn [drive_upload_file_loop]. rewrite !bind_assoc.
  fold (upload_request guess_type p folder_id).
  unfold bind at 1.
  destruct (respond (upload_request guess_type p folder_id) (remote st))
    as [body w'] eqn:Hr.
  rewrite (send_eq _ _ _ _ _ Hr).
  match goal with
  | |- context [snd (?K (after st w' ?e))] =>
      assert (Hk : emits (task_event p folder_id) (after st w' e) (snd (K (after st w' e))))
  end.
  { match goal with |- emits _ _ (snd (?K _)) => cut (emitting (task_event p folder_id) K) end;
      [intros Hk; apply Hk|].
    repeat first
      [ apply emitting_ret | apply emitting_lift | apply emitting_counter
      | apply emitting_send; reflexivity | apply emitting_sleep; reflexivity
      | apply emitting_bind; [|intros ?]
      | eapply emitting_weaken;
        [apply upload_event_is_task_event|apply upload_loop_emitting]
      | match goal with
        | |- context [if ?b then _ else _] => destruct b
        end ]. }
  destruct Hk as (evs & He & HP). exists evs. rewrite He. simpl.
  rewrite <- app_assoc. split; [reflexivity|exact HP].
Qed.

(** Once the file is uploaded, the one event that follows is the
    emoji-creation request under the derived name. *)
Lemma upload_one_then_add fuel emoji_dict folder_id o p (st st1 : state (W := W))
    file_data file_id :
  in_index (derive_name p) emoji_dict = false ->
  drive_upload_file respond guess_type fuel p folder_id (PathLib.name p) st
  = (Ok file_data, st1) ->
  Py.getitem file_data "id" = Ok file_id ->
  events (snd (upload_one respond guess_type fuel emoji_dict folder_id o p st))
  = events st1 ++ [Sent (add_request o p file_id)].
Proof.
  intros H Hu Hid. unfold upload_one, bind. rewrite H, Hu. unfold lift.
  rewrite Hid. unfold emoji_add, send. fold (add_request o p file_id).
  destruct (respond (add_request o p file_id) (remote st1)) as [body w2].
  destruct (Py.contains "error" body) as [[]| |]; simpl; try reflexivity.
  - destruct (Py.getitem body "error") as [error| |]; simpl; try reflexivity.
    destruct (Py.getitem error "code") as [code| |]; simpl; try reflexivity.
    destruct (Py.eq_str code "DUPLICATE_NAME"); reflexivity.
  - destruct (Py.getitem body "id"); reflexivity.
Qed.

End Names.

(** C10.  A task that passes the pre-check first sends an upload request
    that carries the file's full base name, [emoji_path.name], unchanged;
    every request it sends afterwards is either that same upload again or
    an emoji creation under the derived name, and once the upload has
    succeeded the creation request under the derived name is what follows.
    So the drive file and the emoji are named differently exactly when
    derivation changes the name, as for [Foo-Bar.png] and [foo_bar]. *)
Theorem upload_keeps_file_name :
  forall (W : Type) (respond : request -> W -> json * W)
         (guess_type : string -> option string) (fuel : nat)
         (emoji_dict : gmap string json) (folder_id : json) (o : options)
         (p : Path) (st : state (W := W)),
    in_index (derive_name p) emoji_dict = false ->
    let run := upload_one respond guess_type (S fuel) emoji_dict folder_id o p st in
    (exists evs,
        events (snd run)
        = events st ++ Sent (upload_request guess_type p folder_id) :: evs /\
        Forall (task_event p folder_id) evs) /\
    request_name (upload_request guess_type p folder_id) = Some (PathLib.name p) /\
    (forall file_data st1 file_id,
        drive_upload_file respond guess_type (S fuel) p folder_id (PathLib.name p) st
        = (Ok file_data, st1) ->
        Py.getitem file_data "id" = Ok file_id ->
        events (snd run) = events st1 ++ [Sent (add_request o p file_id)] /\
        request_name (add_request o p file_id) = Some (derive_name p)) /\
    (request_name (upload_request guess_type ["Foo-Bar.png"] folder_id)
     = Some "Foo-Bar.png" /\
     request_name (add_request o ["Foo-Bar.png"] JNull) = Some "foo_bar").
Proof.
  intros W respond guess_type fuel emoji_dict folder_id o p st H run.
  split; [apply upload_one_first_request, H|].
  split; [reflexivity|]. split; [|split; reflexivity].
  intros file_data st1 file_id Hu Hid. split; [|reflexivity].
  exact (upload_one_then_add respond guess_type (S fuel) emoji_dict folder_id o p
           st st1 file_data file_id H Hu Hid).
Qed.

(** [Foo-Bar.png] is uploaded under that name and registered as [foo_bar]. *)
Lemma upload_keeps_file_name_witness :
  events (snd (upload_one Scripted.respond Scripted.guess_type 1 ∅ (JStr "d1")
                 Scripted.no_options ["Foo-Bar.png"]
                 (Scripted.init [Scripted.record "f1" "Foo-Bar.png";
                                 Scripted.record "e1" "foo_bar"])))
  = [Sent (PostDriveFilesCreate ["Foo-Bar.png"] "Foo-Bar.png" "image/png" (JStr "d1"));
     Sent (PostEmojiAdd "foo_bar" (JStr "f1") "" "" false false)].
Proof.
  pose proof (upload_keeps_file_name Scripted.world Scripted.respond
                Scripted.guess_type 0 ∅ (JStr "d1") Scripted.no_options
                ["Foo-Bar.png"]
                (Scripted.init [Scripted.record "f1" "Foo-Bar.png";
                                Scripted.record "e1" "foo_bar"])
                eq_refl) as (_ & _ & H & _).
  exact (proj1 (H (Scripted.record "f1" "Foo-Bar.png")
                  (mk_state [Scripted.record "e1" "foo_bar"]
                     [Sent (PostDriveFilesCreate ["Foo-Bar.png"] "Foo-Bar.png"
                              "image/png" (JStr "d1"))] 0 0)
                  (JStr "f1") eq_refl eq_refl)).
Defined.

(** ** The tally *)

(** C4.  Over a task list of length [total]: a task that ends without an
    exception adds one to exactly one of the two counters and leaves the
    other alone; after any prefix of the list, and in the final state of
    [start] however it ends, succeeded + skipped is at most the number of
    tasks; and a run that ends normally reports [total] tasks with
    succeeded + skipped = [total]. *)
Theorem counters_account_for_tasks :
  forall (W : Type) (respond : request -> W -> json * W)
         (guess_type : string -> option string) (fuel : nat)
         (tasks : list Path) (drive_path : string) (o : options)
         (st0 : state (W := W)),
    let run := start respond guess_type fuel tasks drive_path o st0 in
    (success_count (snd run) + skipped_count (snd run) <= length tasks)%nat /\
    (forall summary,
        fst run = Ok summary ->
        total summary = length tasks /\
        succeeded summary = success_count (snd run) /\
        skipped summary = skipped_count (snd run) /\
        (succeeded summary + skipped summary)%nat = total summary) /\
    (forall emoji_dict folder_id done rest (st : state (W := W)),
        tasks = done ++ rest ->
        (success_count st + skipped_count st)%nat = 0%nat ->
        let part := start_loop respond guess_type fuel emoji_dict folder_id o done st in
        (success_count (snd part) + skipped_count (snd part) <= length done
         <= length tasks)%nat /\
        (fst part = Ok tt ->
         (success_count (snd part) + skipped_count (snd part))%nat = length done)) /\
    (forall emoji_dict folder_id p (st : state (W := W)),
        let one := upload_one respond guess_type fuel emoji_dict folder_id o p st in
        fst one = Ok tt ->
        (success_count (snd one) = S (success_count st) /\
         skipped_count (snd one) = skipped_count st) \/
        (success_count (snd one) = success_count st /\
         skipped_count (snd one) = S (skipped_count st))).
Proof.
  intros W respond guess_type fuel tasks drive_path o st0 run.
  assert (Hrun : (success_count (snd run) + skipped_count (snd run) <= length tasks)%nat /\
                 forall summary, fst run = Ok summary ->
                   total summary = length tasks /\
                   succeeded summary = success_count (snd run) /\
                   skipped summary = skipped_count (snd run) /\
                   (succeeded summary + skipped summary)%nat = total summary).
  { subst run. unfold start, bind.
    pose proof (start_setup_counters respond fuel drive_path st0) as [Hs Hk].
    destruct (start_setup respond fuel drive_path st0) as [[setup| |] st];
      simpl in Hs, Hk; simpl; try (split; [lia|discriminate]).
    pose proof (start_loop_counts respond guess_type fuel (fst setup) (snd setup)
                  o tasks st) as [Hb Hok].
    simpl in Hb, Hok.
    destruct (start_loop respond guess_type fuel (fst setup) (snd setup) o tasks st)
      as [[[]| |] st']; simpl in *; try (split; [lia|discriminate]).
    specialize (Hok eq_refl). split; [lia|].
    intros summary [= <-]. simpl. repeat split. lia. }
  destruct Hrun as [Hle Hsum]. split; [exact Hle|]. split; [exact Hsum|]. split.
  - intros emoji_dict folder_id done rest st -> Hz part.
    pose proof (start_loop_counts respond guess_type fuel emoji_dict folder_id o
                  done st) as [Hb Hok].
    fold part in Hb, Hok. simpl in Hb, Hok. rewrite length_app.
    split; [lia|]. intros Hr. specialize (Hok Hr). lia.
  - intros emoji_dict folder_id p st one.
    exact (proj2 (upload_one_counts respond guess_type fuel emoji_dict folder_id o p st)).
Qed.

(** [cat.png] is created, [dog.png] is rejected as a duplicate at creation
    time: one success, one skip, two tasks. *)
Lemma counters_account_for_tasks_witness :
  fst (start Scripted.respond Scripted.guess_type 1 [["cat.png"]; ["dog.png"]] ""
         Scripted.no_options
         (Scripted.init [JObj [("emojis", JArr [])];
                         Scripted.record "f1" "cat.png"; Scripted.record "e1" "cat";
                         Scripted.record "f2" "dog.png";
                         Scripted.error "DUPLICATE_NAME"]))
  = Ok (mk_summary 2 1 1) /\
  (1 + 1)%nat = 2%nat.
Proof.
  pose proof (counters_account_for_tasks Scripted.world Scripted.respond
                Scripted.guess_type 1 [["cat.png"]; ["dog.png"]] ""
                Scripted.no_options
                (Scripted.init [JObj [("emojis", JArr [])];
                                Scripted.record "f1" "cat.png";
                                Scripted.record "e1" "cat";
                                Scripted.record "f2" "dog.png";
                                Scripted.error "DUPLICATE_NAME"]))
    as (_ & H & _).
  split; [reflexivity|].
  exact (proj2 (proj2 (proj2 (H (mk_summary 2 1 1) eq_refl)))).
Defined.

(** ** Rate limits at emoji creation *)

Lemma rate_limit_is_not_duplicate data :
  is_rate_limit data = true -> is_error_except ["DUPLICATE_NAME"] data = true.
Proof.
  unfold is_rate_limit, has_code, is_error_except.
  destruct (Py.contains "error" data) as [[]| |]; try discriminate.
  destruct (error_code data) as [code| |]; try discriminate.
  destruct code; simpl; try discriminate.
  intros H. apply String.eqb_eq in H. subst. reflexivity.
Qed.

(** [emoji_add] sends its request once and [start] raises on every error
    code but [DUPLICATE_NAME]: a rate-limit answer ends the task, and with
    it the run, after one attempt and without a sleep. *)
Lemma rate_limit_at_create_raises {W : Type} (respond : request -> W -> json * W)
    (guess_type : string -> option string) fuel emoji_dict folder_id o p rest
    (st st1 : state (W := W)) file_data file_id body w2 error :
  in_index (derive_name p) emoji_dict = false ->
  drive_upload_file respond guess_type fuel p folder_id (PathLib.name p) st
  = (Ok file_data, st1) ->
  Py.getitem file_data "id" = Ok file_id ->
  respond (add_request o p file_id) (remote st1) = (body, w2) ->
  is_rate_limit body = true ->
  Py.getitem body "error" = Ok error ->
  start_loop respond guess_type fuel emoji_dict folder_id o (p :: rest) st
  = (Raise (RuntimeError error), after st1 w2 [Sent (add_request o p file_id)]).
Proof.
  intros H Hu Hid Hr Hl Hp. apply start_loop_cons_raise.
  apply (upload_one_create_error respond guess_type fuel emoji_dict folder_id o p
           st st1 file_data file_id body w2 error H Hu Hid Hr);
    [apply rate_limit_is_not_duplicate, Hl|exact Hp].
Qed.

(** C2.  The run over [cat.png] in which the instance answers the emoji
    creation first with [RATE_LIMIT_EXCEEDED] and would answer a second
    attempt with the new emoji: [start] raises [RuntimeError] with the
    rate-limit payload after a single creation request, never sleeps, never
    asks again (the success answer is still unread), and counts no
    success. *)
Theorem emoji_add_rate_limit_is_fatal :
  let script := [JObj [("emojis", JArr [])];
                 Scripted.record "f1" "cat.png";
                 Scripted.error "RATE_LIMIT_EXCEEDED";
                 Scripted.record "e1" "cat"] in
  let run := start Scripted.respond Scripted.guess_type 5 [["cat.png"]] ""
               Scripted.no_options (Scripted.init script) in
  fst run = Raise (RuntimeError (JObj [("code", JStr "RATE_LIMIT_EXCEEDED");
                                       ("message", JStr "...")])) /\
  events (snd run)
  = [Sent GetEmojis;
     Sent (PostDriveFilesCreate ["cat.png"] "cat.png" "image/png" JNull);
     Sent (PostEmojiAdd "cat" (JStr "f1") "" "" false false)] /\
  count_events is_emoji_add (events (snd run)) = 1 /\
  count_events is_sleep (events (snd run)) = 0 /\
  remote (snd run) = [Scripted.record "e1" "cat"] /\
  success_count (snd run) = 0.
Proof. vm_compute. repeat split. Qed.

(** ** The folder path resolver *)

Section Resolver.

Context {W : Type}.
Variable respond : request -> W -> json * W.

(** One segment that the listing holds: the listing is the only request,
    nothing is created, and [folder_data] is passed on as it was. *)
Lemma segment_found fuel folder rest parent_id folder_data (st : state (W := W))
    folders w' fs i :
  respond (PostDriveFolders parent_id) (remote st) = (folders, w') ->
  Py.iter folders = Ok fs ->
  find_folder folder fs = Ok (Some i) ->
  create_drive_folder_path_loop respond fuel (folder :: rest) parent_id folder_data st
  = create_drive_folder_path_loop respond fuel rest i folder_data
      (after st w' [Sent (PostDriveFolders parent_id)]).
Proof.
  intros Hr Hi Hf. simpl. unfold bind, drive_get_folders.
  rewrite (send_eq _ _ _ _ _ Hr). unfold lift. rewrite Hi, Hf. reflexivity.
Qed.

(** One segment that the listing does not hold: the creation runs in the
    state that the listing left, and its record becomes [folder_data]. *)
Lemma segment_missing fuel folder rest parent_id folder_data (st : state (W := W))
    folders w' fs :
  respond (PostDriveFolders parent_id) (remote st) = (folders, w') ->
  Py.iter folders = Ok fs ->
  find_folder folder fs = Ok None ->
  create_drive_folder_path_loop respond fuel (folder :: rest) parent_id folder_data st
  = bind (create_drive_folder respond fuel folder parent_id)
         (fun data =>
            bind (lift (Py.getitem data "id"))
                 (fun i => create_drive_folder_path_loop respond fuel rest i (Some data)))
         (after st w' [Sent (PostDriveFolders parent_id)]).
Proof.
  intros Hr Hi Hf. simpl. unfold bind at 1 2 3, drive_get_folders.
  rewrite (send_eq _ _ _ _ _ Hr). unfold lift at 1 2. rewrite Hi, Hf. reflexivity.
Qed.

(** When no segment had to be created, the resolver asks once for the
    record of the folder it reached and returns the answer. *)
Lemma all_found_shows_last fuel path (st st1 : state (W := W)) parent_id body w2 :
  create_drive_folder_path_loop respond fuel (Str.split "/" path) JNull None st
  = (Ok (parent_id, None), st1) ->
  respond (PostDriveFoldersShow parent_id) (remote st1) = (body, w2) ->
  create_drive_folder_path respond fuel path st
  = (Ok body, after st1 w2 [Sent (PostDriveFoldersShow parent_id)]).
Proof.
  intros Hl Hr. unfold create_drive_folder_path, bind. rewrite Hl. simpl.
  unfold drive_show_folders. apply send_eq, Hr.
Qed.

(** When some segment was created, the resolver returns the record of the
    latest creation and sends nothing more. *)
Lemma some_created_returns_it fuel path (st st1 : state (W := W)) parent_id data :
  create_drive_folder_path_loop respond fuel (Str.split "/" path) JNull None st
  = (Ok (parent_id, Some data), st1) ->
  create_drive_folder_path respond fuel path st = (Ok data, st1).
Proof.
  intros Hl. unfold create_drive_folder_path, bind. rewrite Hl. reflexivity.
Qed.

End Resolver.

(** C1.  The resolution of ["a/b"] in which the listing of the root is
    empty, folder "a" is created with id "1", and the listing of "1" already
    holds a folder "b" with id "2": the loop ends on parent id "2", but the
    function returns the record kept from the creation of "a", and sends no
    show-folder request; [start] then uploads into folder "1". *)
Theorem created_then_found_returns_stale_record :
  let script := [JArr []; Scripted.record "1" "a"; JArr [Scripted.record "2" "b"]] in
  let st := Scripted.init script in
  fst (create_drive_folder_path_loop Scripted.respond 1 (Str.split "/" "a/b")
         JNull None st)
  = Ok (JStr "2", Some (Scripted.record "1" "a")) /\
  fst (create_drive_folder_path Scripted.respond 1 "a/b" st)
  = Ok (Scripted.record "1" "a") /\
  events (snd (create_drive_folder_path Scripted.respond 1 "a/b" st))
  = [Sent (PostDriveFolders JNull); Sent (PostDriveFoldersCreate "a" JNull);
     Sent (PostDriveFolders (JStr "1"))] /\
  List.last (Str.split "/" "a/b") "" = "b" /\
  events (snd (start Scripted.respond Scripted.guess_type 1 [["cat.png"]] "a/b"
                 Scripted.no_options
                 (Scripted.init (JObj [("emojis", JArr [])] :: script
                                 ++ [Scripted.record "f1" "cat.png";
                                     Scripted.record "e1" "cat"]))))
  = [Sent GetEmojis;
     Sent (PostDriveFolders JNull); Sent (PostDriveFoldersCreate "a" JNull);
     Sent (PostDriveFolders (JStr "1"));
     Sent (PostDriveFilesCreate ["cat.png"] "cat.png" "image/png" (JStr "1"));
     Sent (PostEmojiAdd "cat" (JStr "f1") "" "" false false)].
Proof. vm_compute. repeat split. Qed.

(** ** The resolver against the reference instance *)

Section ReferenceInstance.

Import Misskey.

Lemma lookup_app parent name fs extra i :
  lookup parent name fs = Some i -> lookup parent name (fs ++ extra) = Some i.
Proof.
  induction fs as [|f fs IH]; simpl; [discriminate|].
  destruct (same_id (parentId f) parent && String.eqb (folder_name f) name); auto.
Qed.

Lemma lookup_new parent name fs f :
  lookup parent name fs = None ->
  same_id (parentId f) parent = true ->
  folder_name f = name ->
  lookup parent name (fs ++ [f]) = Some (folder_id f).
Proof.
  intros Hn Hs <-. induction fs as [|g fs IH]; simpl in *.
  - rewrite Hs, String.eqb_refl. reflexivity.
  - destruct (same_id (parentId g) parent && String.eqb (folder_name g) (folder_name f));
      [discriminate|auto].
Qed.

Lemma same_id_as_id parent p : as_id parent = Some p -> same_id p parent = true.
Proof.
  destruct parent; simpl; try discriminate; intros [= <-]; simpl;
    [reflexivity|apply String.eqb_refl].
Qed.

(** The client's scan of a listing finds what [lookup] finds. *)
Lemma find_folder_children parent name fs :
  find_folder name (map folder_json (children parent fs))
  = Ok (option_map JStr (lookup parent name fs)).
Proof.
  induction fs as [|f fs IH]; simpl; [reflexivity|].
  destruct (same_id (parentId f) parent); simpl; [|exact IH].
  destruct (String.eqb (folder_name f) name); simpl; [reflexivity|exact IH].
Qed.

(** A resolution whose every segment is already there: no creation, the
    instance stays as it was, [folder_data] is passed through. *)
Lemma resolve_existing fuel segs parent folder_data m ev s k q :
  walk (folders m) parent segs = Some q ->
  exists evs,
    create_drive_folder_path_loop respond fuel segs parent folder_data
      (mk_state m ev s k)
    = (Ok (q, folder_data), mk_state m (ev ++ evs) s k) /\
    count_events is_folder_create evs = 0 /\
    count_events is_folder_show evs = 0.
Proof.
  revert parent ev. induction segs as [|seg segs IH]; intros parent ev; simpl walk.
  - intros [= <-]. exists []. rewrite app_nil_r. repeat split.
  - destruct (lookup parent seg (folders m)) as [i|] eqn:Hl; [|discriminate].
    intros Hw.
    destruct (IH (JStr i) (ev ++ [Sent (PostDriveFolders parent)]) Hw)
      as (evs & Hrun & Hc & Hs).
    exists (Sent (PostDriveFolders parent) :: evs). split; [|split; assumption].
    erewrite segment_found;
      [|reflexivity|reflexivity|simpl; rewrite find_folder_children, Hl; reflexivity].
    unfold after. simpl. rewrite Hrun, <- app_assoc. reflexivity.
Qed.

(** Any resolution: it ends normally, creates at most one folder for each
    segment, only adds folders, and leaves the instance in a state where
    the whole chain is there. *)
Lemma resolve_any fuel segs parent folder_data m ev s k :
  as_id parent <> None ->
  exists q folder_data' m' evs,
    create_drive_folder_path_loop respond (S fuel) segs parent folder_data
      (mk_state m ev s k)
    = (Ok (q, folder_data'), mk_state m' (ev ++ evs) s k) /\
    walk (folders m') parent segs = Some q /\
    (exists extra, folders m' = folders m ++ extra /\
                   length extra = count_events is_folder_create evs) /\
    (count_events is_folder_create evs <= length segs)%nat.
Proof.
  revert parent folder_data m ev.
  induction segs as [|seg segs IH]; intros parent folder_data m ev Hp.
  - exists parent, folder_data, m, []. simpl. rewrite !app_nil_r.
    split; [reflexivity|]. split; [reflexivity|]. split.
    + exists []. rewrite app_nil_r. split; reflexivity.
    + unfold count_events. simpl. lia.
  - destruct (lookup parent seg (folders m)) as [i|] eqn:Hl.
    + destruct (IH (JStr i) folder_data m (ev ++ [Sent (PostDriveFolders parent)]))
        as (q & fd' & m' & evs & Hrun & Hw & (extra & Hx & Hlen) & Hc);
        [discriminate|].
      exists q, fd', m', (Sent (PostDriveFolders parent) :: evs).
      split; [|split; [|split]].
      * erewrite segment_found;
          [|reflexivity|reflexivity
           |simpl; rewrite find_folder_children, Hl; reflexivity].
        unfold after. simpl. rewrite Hrun, <- app_assoc. reflexivity.
      * assert (Hlk : lookup parent seg (folders m') = Some i).
        { rewrite Hx. apply lookup_app, Hl. }
        cbn [walk]. rewrite Hlk. exact Hw.
      * exists extra. split; [exact Hx|exact Hlen].
      * simpl. unfold count_events in *. simpl. lia.
    + destruct (as_id parent) as [p|] eqn:Ha; [|congruence].
      pose (f := mk_folder (pretty (next_id m)) seg p).
      pose (m1 := mk_instance (folders m ++ [f]) (files m) (emojis m) (S (next_id m))).
      destruct (IH (JStr (folder_id f)) (Some (folder_json f)) m1
                  (ev ++ [Sent (PostDriveFolders parent);
                          Sent (PostDriveFoldersCreate seg parent)]))
        as (q & fd' & m' & evs & Hrun & Hw & (extra & Hx & Hlen) & Hc);
        [discriminate|].
      exists q, fd', m',
        (Sent (PostDriveFolders parent) :: Sent (PostDriveFoldersCreate seg parent)
         :: evs).
      split; [|split; [|split]].
      * erewrite segment_missing;
          [|reflexivity|reflexivity
           |simpl; rewrite find_folder_children, Hl; reflexivity].
        unfold bind at 1.
        erewrite create_drive_folder_success;
          [|simpl; rewrite Ha; reflexivity|reflexivity].
        unfold bind, lift. simpl Py.getitem. cbv iota beta.
        unfold after. simpl remote. simpl events. simpl success_count.
        simpl skipped_count. rewrite <- app_assoc. simpl app.
        fold f. fold m1. change (pretty (next_id m)) with (folder_id f).
        rewrite Hrun, <- app_assoc. reflexivity.
      * assert (Hlk : lookup parent seg (folders m') = Some (folder_id f)).
        { rewrite Hx. apply lookup_app.
          apply lookup_new; [exact Hl|apply same_id_as_id, Ha|reflexivity]. }
        cbn [walk]. rewrite Hlk. exact Hw.
      * exists (f :: extra). split.
        -- rewrite Hx. simpl. rewrite <- app_assoc. reflexivity.
        -- unfold count_events in *. simpl. lia.
      * unfold count_events in *. simpl. lia.
Qed.

End ReferenceInstance.

Lemma count_events_app p evs1 evs2 :
  count_events p (evs1 ++ evs2) = (count_events p evs1 + count_events p evs2)%nat.
Proof. unfold count_events. rewrite List.filter_app, length_app. reflexivity. Qed.

Lemma show_keeps_instance folder m :
  snd (Misskey.respond (PostDriveFoldersShow folder) m) = m.
Proof.
  simpl. destruct (List.find _ (Misskey.folders m)); reflexivity.
Qed.

(** A whole resolution against the reference instance, from any state. *)
Lemma resolve_path_any fuel path m ev s k :
  exists d m' evs,
    create_drive_folder_path Misskey.respond (S fuel) path (mk_state m ev s k)
    = (Ok d, mk_state m' (ev ++ evs) s k) /\
    Misskey.walk (Misskey.folders m') JNull (Str.split "/" path) <> None /\
    length (Misskey.folders m')
    = (length (Misskey.folders m) + count_events is_folder_create evs)%nat /\
    (count_events is_folder_create evs <= length (Str.split "/" path))%nat.
Proof.
  destruct (resolve_any fuel (Str.split "/" path) JNull None m ev s k)
    as (q & fd' & m' & evs & Hrun & Hw & (extra & Hx & Hlen) & Hc); [discriminate|].
  pose proof (show_keeps_instance q m') as Hs.
  destruct (Misskey.respond (PostDriveFoldersShow q) m') as [body m2] eqn:Hshow.
  cbn [snd] in Hs. subst m2.
  unfold create_drive_folder_path, bind. rewrite Hrun. cbn [fst snd].
  destruct fd' as [d|].
  - exists d, m', evs. split; [reflexivity|]. split; [congruence|].
    split; [rewrite Hx, length_app; lia|exact Hc].
  - unfold drive_show_folders. erewrite send_eq; [|exact Hshow].
    exists body, m', (evs ++ [Sent (PostDriveFoldersShow q)]).
    unfold after. cbn [events success_count skipped_count]. rewrite <- app_assoc.
    split; [reflexivity|]. split; [congruence|].
    rewrite count_events_app.
    change (count_events is_folder_create [Sent (PostDriveFoldersShow q)]) with 0%nat.
    split; [rewrite Hx, length_app; lia|lia].
Qed.

(** A resolution against an instance that already holds the whole chain. *)
Lemma resolve_path_existing fuel path m ev s k :
  Misskey.walk (Misskey.folders m) JNull (Str.split "/" path) <> None ->
  exists d evs,
    create_drive_folder_path Misskey.respond fuel path (mk_state m ev s k)
    = (Ok d, mk_state m (ev ++ evs) s k) /\
    count_events is_folder_create evs = 0 /\
    count_events is_folder_show evs = 1.
Proof.
  intros Hw.
  destruct (Misskey.walk (Misskey.folders m) JNull (Str.split "/" path))
    as [q|] eqn:Hq; [clear Hw|congruence].
  destruct (resolve_existing fuel (Str.split "/" path) JNull None m ev s k q Hq)
    as (evs & Hrun & Hc & Hs).
  pose proof (show_keeps_instance q m) as Hk.
  destruct (Misskey.respond (PostDriveFoldersShow q) m) as [body m2] eqn:Hb.
  cbn [snd] in Hk. subst m2.
  unfold create_drive_folder_path, bind. rewrite Hrun. cbn [fst snd].
  unfold drive_show_folders. erewrite send_eq; [|exact Hb].
  exists body, (evs ++ [Sent (PostDriveFoldersShow q)]).
  unfold after. cbn [events success_count skipped_count]. rewrite <- app_assoc.
  split; [reflexivity|].
  rewrite !count_events_app, Hc, Hs. split; reflexivity.
Qed.

(** C8.  For any remote, a segment found in the listing costs the listing
    alone and passes straight to the next segment, and for a segment that
    is not found the creation runs in the state the listing left.  Against
    the reference instance, from any state: resolving a path ends normally
    and sends at most one creation per segment; resolving the same path
    again sends no creation at all and leaves the instance exactly as the
    first resolution left it. *)
Theorem folder_resolution_is_idempotent :
  (forall (W : Type) (respond : request -> W -> json * W) (fuel : nat)
          (folder : string) (rest : list string) (parent_id : json)
          (folder_data : option json) (st : state (W := W))
          (folders : json) (w' : W) (fs : list json),
      respond (PostDriveFolders parent_id) (remote st) = (folders, w') ->
      Py.iter folders = Ok fs ->
      let listed := after st w' [Sent (PostDriveFolders parent_id)] in
      (forall i,
          find_folder folder fs = Ok (Some i) ->
          create_drive_folder_path_loop respond fuel (folder :: rest) parent_id
            folder_data st
          = create_drive_folder_path_loop respond fuel rest i folder_data listed) /\
      (find_folder folder fs = Ok None ->
       create_drive_folder_path_loop respond fuel (folder :: rest) parent_id
         folder_data st
       = bind (create_drive_folder respond fuel folder parent_id)
              (fun data =>
                 bind (lift (Py.getitem data "id"))
                      (fun i => create_drive_folder_path_loop respond fuel rest i
                                  (Some data)))
              listed)) /\
  (forall (fuel : nat) (path : string) (m : Misskey.instance)
          (ev : list event) (s k : nat),
      let st0 := mk_state m ev s k in
      let run1 := create_drive_folder_path Misskey.respond (S fuel) path st0 in
      let run2 := create_drive_folder_path Misskey.respond (S fuel) path (snd run1) in
      (exists d1, fst run1 = Ok d1) /\
      (exists d2, fst run2 = Ok d2) /\
      (count_events is_folder_create (emitted st0 (snd run1))
       <= length (Str.split "/" path))%nat /\
      length (Misskey.folders (remote (snd run1)))
      = (length (Misskey.folders m)
         + count_events is_folder_create (emitted st0 (snd run1)))%nat /\
      count_events is_folder_create (emitted (snd run1) (snd run2)) = 0 /\
      remote (snd run2) = remote (snd run1)).
Proof.
  split.
  - intros W respond fuel folder rest parent_id folder_data st folders w' fs
           Hr Hi listed.
    split.
    + intros i Hf. exact (segment_found respond fuel folder rest parent_id
                            folder_data st folders w' fs i Hr Hi Hf).
    + intros Hf. exact (segment_missing respond fuel folder rest parent_id
                          folder_data st folders w' fs Hr Hi Hf).
  - intros fuel path m ev s k st0 run1 run2.
    destruct (resolve_path_any fuel path m ev s k)
      as (d1 & m' & evs1 & Hrun1 & Hw & Hlen & Hc).
    fold st0 in Hrun1. fold run1 in Hrun1.
    destruct (resolve_path_existing (S fuel) path m' (ev ++ evs1) s k Hw)
      as (d2 & evs2 & Hrun2 & Hc2 & _).
    assert (H1 : snd run1 = mk_state m' (ev ++ evs1) s k) by (rewrite Hrun1; reflexivity).
    subst run2. rewrite H1, Hrun2, Hrun1. simpl fst. simpl snd.
    unfold emitted, st0. simpl events. simpl remote.
    rewrite !drop_app_length.
    split; [eauto|]. split; [eauto|]. repeat split; assumption.
Qed.

(** A listing that holds the segment, on the scripted remote; then ["a/b"]
    resolved twice from the empty reference instance. *)
Lemma folder_resolution_is_idempotent_witness :
  create_drive_folder_path_loop Scripted.respond 1 ["a"; "b"] JNull None
    (Scripted.init [JArr [Scripted.record "1" "a"]; JArr []])
  = create_drive_folder_path_loop Scripted.respond 1 ["b"] (JStr "1") None
      (mk_state [JArr []] [Sent (PostDriveFolders JNull)] 0 0) /\
  count_events is_folder_create
    (events (snd (create_drive_folder_path Misskey.respond 1 "a/b"
                    (mk_state Misskey.empty [] 0 0)))) = 2.
Proof.
  split; [|reflexivity].
  exact (proj1 (proj1 folder_resolution_is_idempotent Scripted.world
                  Scripted.respond 1 "a" ["b"] JNull None
                  (Scripted.init [JArr [Scripted.record "1" "a"]; JArr []])
                  (JArr [Scripted.record "1" "a"]) [JArr []]
                  [Scripted.record "1" "a"] eq_refl eq_refl)
           (JStr "1") eq_refl).
Defined.

(** ** The end-to-end example of the specification

    [cat.png] and [dog.png] against a reference instance that already has
    an emoji "dog": [cat] is uploaded into the resolved folder and created,
    [dog] is skipped before any upload. *)
Example cat_created_dog_skipped :
  let m := snd (Misskey.respond (PostEmojiAdd "dog" (JStr "x") "" "" false false)
                  Misskey.empty) in
  let run := start Misskey.respond Scripted.guess_type 1
               [["cat.png"]; ["dog.png"]] "emojis" Scripted.no_options
               (mk_state m [] 0 0) in
  fst run = Ok (mk_summary 2 1 1) /\
  events (snd run)
  = [Sent GetEmojis;
     Sent (PostDriveFolders JNull);
     Sent (PostDriveFoldersCreate "emojis" JNull);
     Sent (PostDriveFilesCreate ["cat.png"] "cat.png" "image/png" (JStr "1"));
     Sent (PostEmojiAdd "cat" (JStr "2") "" "" false false)].
Proof. vm_compute. split; reflexivity. Qed.

(** * Further properties of the code *)

(** ** The index of current emoji names *)

Lemma emoji_index_value emojis acc idx s emoji :
  emoji_index emojis acc = Ok idx ->
  idx !! s = Some emoji ->
  acc !! s = Some emoji \/
  (In emoji emojis /\ Py.getitem emoji "name" = Ok (JStr s)).
Proof.
  revert acc. induction emojis as [|e emojis IH]; intros acc; simpl.
  - intros [= <-]. auto.
  - destruct (Py.getitem e "name") as [n| |] eqn:Hn; simpl; try discriminate.
    assert (Hskip : emoji_index emojis acc = Ok idx ->
                    idx !! s = Some emoji ->
                    acc !! s = Some emoji \/
                    ((e = emoji \/ In emoji emojis) /\
                     Py.getitem emoji "name" = Ok (JStr s))).
    { intros H Hl. destruct (IH _ H Hl) as [Ha|[Hi Hg]]; auto. }
    destruct n as [|b|z|t|l|f]; try discriminate; try exact Hskip.
    intros H Hl. destruct (IH _ H Hl) as [Ha|[Hi Hg]]; [|auto].
    destruct (decide (t = s)) as [->|Hts].
    + rewrite lookup_insert_eq in Ha. injection Ha as <-. auto.
    + rewrite lookup_insert_ne in Ha by exact Hts. auto.
Qed.

(** X1.  When the index of [start] can be built from the listing, a name is
    in it exactly when some listed emoji has that string as ["name"], and
    the record kept under a name is a listed emoji of that name. *)
Theorem index_holds_the_listed_names :
  forall (emojis : list json) (idx : gmap string json),
    emoji_index emojis ∅ = Ok idx ->
    (forall s,
        in_index s idx = true <->
        exists emoji, In emoji emojis /\ Py.getitem emoji "name" = Ok (JStr s)) /\
    (forall s emoji,
        idx !! s = Some emoji ->
        In emoji emojis /\ Py.getitem emoji "name" = Ok (JStr s)).
Proof.
  intros emojis idx H. split.
  - intros s. rewrite (emoji_index_lookup emojis ∅ idx s H).
    unfold in_index. rewrite bool_decide_eq_true, lookup_empty.
    split; [intros [[x Hx]|Hx]; [discriminate|exact Hx]|auto].
  - intros s emoji Hl.
    destruct (emoji_index_value emojis ∅ idx s emoji H Hl) as [Ha|Hx]; [|exact Hx].
    rewrite lookup_empty in Ha. discriminate.
Qed.

(** A listing with "dog" twice and an entry whose name is a number. *)
Lemma index_holds_the_listed_names_witness :
  in_index "dog"
    (<["dog" := JObj [("name", JStr "dog"); ("id", JStr "2")]]>
       (<["dog" := JObj [("name", JStr "dog"); ("id", JStr "1")]]> ∅)) = true <->
  exists emoji,
    In emoji [JObj [("name", JStr "dog"); ("id", JStr "1")];
              JObj [("name", JNum 7)];
              JObj [("name", JStr "dog"); ("id", JStr "2")]] /\
    Py.getitem emoji "name" = Ok (JStr "dog").
Proof.
  exact (proj1 (index_holds_the_listed_names
                  [JObj [("name", JStr "dog"); ("id", JStr "1")];
                   JObj [("name", JNum 7)];
                   JObj [("name", JStr "dog"); ("id", JStr "2")]]
                  _ eq_refl) "dog").
Defined.

(** X2.  The index can be built exactly when every listed emoji is a dict
    with a hashable ["name"]; otherwise building it ends in an exception
    ([KeyError] or [TypeError]), never in a partial index. *)
Theorem index_is_built_iff_all_indexable :
  forall (emojis : list json) (acc : gmap string json),
    (forallb indexable emojis = true ->
     exists idx, emoji_index emojis acc = Ok idx) /\
    (forallb indexable emojis = false ->
     exists e, emoji_index emojis acc = Raise e).
Proof.
  intros emojis. induction emojis as [|emoji emojis IH]; intros acc; simpl.
  - split; [eauto|discriminate].
  - assert (Hi : indexable emoji
                 = match Py.getitem emoji "name" with
                   | Ok (JArr _) | Ok (JObj _) => false
                   | Ok _ => true
                   | _ => false
                   end) by reflexivity.
    rewrite Hi. clear Hi.
    destruct (Py.getitem emoji "name") as [n| |] eqn:Hn; simpl.
    + destruct n; simpl; try apply IH; split; try discriminate; eauto.
    + split; [discriminate|eauto].
    + destruct emoji; simpl in Hn; try discriminate.
      destruct (Py.assoc "name" fields); discriminate.
Qed.

(** One entry has no name. *)
Lemma index_is_built_iff_all_indexable_witness :
  exists e,
    emoji_index [JObj [("name", JStr "cat")]; JObj [("id", JStr "3")]] ∅ = Raise e.
Proof.
  exact (proj2 (index_is_built_iff_all_indexable
                  [JObj [("name", JStr "cat")]; JObj [("id", JStr "3")]] ∅)
           eq_refl).
Defined.

(** ** The listing of current emojis *)

(** X3.  [emojis_get_current_list] reads ["emojis"] off the body without
    looking for an error: when the answer to the listing has no such member
    (an error body, a rate limit included) or is not a dict, [start] ends
    with that [KeyError] or [TypeError] after this one request, with both
    counters at 0 and nothing else sent. *)
Theorem listing_without_emojis_aborts :
  forall (W : Type) (respond : request -> W -> json * W)
         (guess_type : string -> option string) (fuel : nat)
         (tasks : list Path) (drive_path : string) (o : options)
         (st0 : state (W := W)) (body : json) (w : W) (e : exn),
    respond GetEmojis (remote st0) = (body, w) ->
    Py.getitem body "emojis" = Raise e ->
    start respond guess_type fuel tasks drive_path o st0
    = (Raise e, mk_state w (events st0 ++ [Sent GetEmojis]) 0 0) /\
    (e = KeyError "emojis" \/ e = TypeError).
Proof.
  intros W respond guess_type fuel tasks drive_path o st0 body w e Hr Hg. split.
  - unfold start, start_setup, emojis_get_current_list, bind, reset_counters, send.
    simpl. rewrite Hr. unfold lift. rewrite Hg. reflexivity.
  - destruct body; simpl in Hg; try (injection Hg as <-; auto).
    destruct (Py.assoc "emojis" fields); [discriminate|].
    injection Hg as <-. auto.
Qed.

(** The listing is answered with a rate-limit body. *)
Lemma listing_without_emojis_aborts_witness :
  start Scripted.respond Scripted.guess_type 3 [["cat.png"]] "emojis"
    Scripted.no_options
    (Scripted.init [Scripted.error "RATE_LIMIT_EXCEEDED"; JObj [("emojis", JArr [])]])
  = (Raise (KeyError "emojis"),
     mk_state [JObj [("emojis", JArr [])]] [Sent GetEmojis] 0 0).
Proof.
  exact (proj1 (listing_without_emojis_aborts Scripted.world Scripted.respond
                  Scripted.guess_type 3 [["cat.png"]] "emojis" Scripted.no_options
                  (Scripted.init [Scripted.error "RATE_LIMIT_EXCEEDED";
                                  JObj [("emojis", JArr [])]])
                  (Scripted.error "RATE_LIMIT_EXCEEDED") [JObj [("emojis", JArr [])]]
                  (KeyError "emojis") eq_refl eq_refl)).
Defined.

Lemma start_loop_all_skipped {W : Type} (respond : request -> W -> json * W)
    (guess_type : string -> option string) fuel emoji_dict folder_id o tasks
    (st : state (W := W)) :
  Forall (fun p => in_index (derive_name p) emoji_dict = true) tasks ->
  start_loop respond guess_type fuel emoji_dict folder_id o tasks st
  = (Ok tt,
     mk_state (remote st) (events st) (success_count st)
              (skipped_count st + length tasks)).
Proof.
  intros H. revert st. induction H as [|p tasks Hp _ IH]; intros st.
  - simpl. destruct st. simpl. rewrite Nat.add_0_r. reflexivity.
  - rewrite (start_loop_cons_ok respond guess_type fuel emoji_dict folder_id o
               p tasks st (skip_counted st)
               (upload_one_skip respond guess_type fuel emoji_dict folder_id o p st Hp)).
    rewrite IH. unfold skip_counted. simpl. do 2 f_equal. lia.
Qed.

(** X4.  A run into the root folder in which every task's derived name is
    already the ["name"] of a listed emoji sends the listing request and
    nothing else: nothing is uploaded or created, and the summary counts
    every task as skipped. *)
Theorem all_listed_uploads_nothing :
  forall (W : Type) (respond : request -> W -> json * W)
         (guess_type : string -> option string) (fuel : nat)
         (tasks : list Path) (o : options) (st0 : state (W := W))
         (body listing : json) (emojis : list json) (idx : gmap string json) (w : W),
    respond GetEmojis (remote st0) = (body, w) ->
    Py.getitem body "emojis" = Ok listing ->
    Py.iter listing = Ok emojis ->
    emoji_index emojis ∅ = Ok idx ->
    (forall p, In p tasks ->
               exists emoji, In emoji emojis /\
                             Py.getitem emoji "name" = Ok (JStr (derive_name p))) ->
    start respond guess_type fuel tasks "" o st0
    = (Ok (mk_summary (length tasks) 0 (length tasks)),
       mk_state w (events st0 ++ [Sent GetEmojis]) 0 (length tasks)).
Proof.
  intros W respond guess_type fuel tasks o st0 body listing emojis idx w
         Hr Hg Hi Hx Hall.
  assert (Hskip : Forall (fun p => in_index (derive_name p) idx = true) tasks).
  { apply List.Forall_forall. intros p Hp.
    apply (emoji_index_lookup emojis ∅ idx (derive_name p) Hx). right.
    apply Hall, Hp. }
  unfold start, start_setup, emojis_get_current_list, bind, reset_counters, send.
  simpl. rewrite Hr. unfold lift. rewrite Hg, Hi, Hx. simpl.
  rewrite (start_loop_all_skipped respond guess_type fuel idx JNull o tasks _ Hskip).
  reflexivity.
Qed.

(** Both files are already registered. *)
Lemma all_listed_uploads_nothing_witness :
  start Scripted.respond Scripted.guess_type 1 [["Cat.png"]; ["big-dog.v2.gif"]] ""
    Scripted.no_options
    (Scripted.init [JObj [("emojis", JArr [Scripted.record "1" "big_dog";
                                           Scripted.record "2" "cat"])]])
  = (Ok (mk_summary 2 0 2), mk_state [] [Sent GetEmojis] 0 2).
Proof.
  refine (all_listed_uploads_nothing Scripted.world Scripted.respond
            Scripted.guess_type 1 [["Cat.png"]; ["big-dog.v2.gif"]]
            Scripted.no_options
            (Scripted.init [JObj [("emojis", JArr [Scripted.record "1" "big_dog";
                                                   Scripted.record "2" "cat"])]])
            _ _ _ _ [] eq_refl eq_refl eq_refl eq_refl _).
  intros p [<-|[<-|[]]].
  - exists (Scripted.record "2" "cat"). split; [right; left; reflexivity|reflexivity].
  - exists (Scripted.record "1" "big_dog"). split; [left; reflexivity|reflexivity].
Defined.

(** ** Malformed answers *)

Lemma split_cons sep s : exists seg rest, Str.split sep s = seg :: rest.
Proof.
  destruct s as [|c s]; simpl; [eauto|].
  destruct (Ascii.eqb c sep); [eauto|].
  destruct (Str.split sep s); eauto.
Qed.

(** X5.  [drive_get_folders] does not look for an error either: when a
    folder listing is answered with a dict that has at least one member (any
    error body, a rate limit included), the scan subscripts a key string
    and the resolver ends with [TypeError] right after that listing, with
    no retry and no folder created.  For the first listing this holds for
    every path. *)
Theorem listing_error_body_is_type_error :
  forall (W : Type) (respond : request -> W -> json * W) (fuel : nat)
         (st : state (W := W)) (parent_id : json) (key : string) (value : json)
         (fields : list (string * json)) (w' : W),
    respond (PostDriveFolders parent_id) (remote st)
    = (JObj ((key, value) :: fields), w') ->
    (forall folder rest folder_data,
        create_drive_folder_path_loop respond fuel (folder :: rest) parent_id
          folder_data st
        = (Raise TypeError, after st w' [Sent (PostDriveFolders parent_id)])) /\
    (parent_id = JNull ->
     forall path,
       create_drive_folder_path respond fuel path st
       = (Raise TypeError, after st w' [Sent (PostDriveFolders JNull)])).
Proof.
  intros W respond fuel st parent_id key value fields w' Hr.
  assert (Hloop : forall folder rest folder_data,
             create_drive_folder_path_loop respond fuel (folder :: rest) parent_id
               folder_data st
             = (Raise TypeError, after st w' [Sent (PostDriveFolders parent_id)])).
  { intros folder rest folder_data. simpl. unfold bind, drive_get_folders.
    rewrite (send_eq _ _ _ _ _ Hr). reflexivity. }
  split; [exact Hloop|].
  intros -> path. unfold create_drive_folder_path, bind.
  destruct (split_cons "/" path) as (seg & rest & ->). rewrite Hloop. reflexivity.
Qed.

(** The listing of the root is rate-limited. *)
Lemma listing_error_body_is_type_error_witness :
  create_drive_folder_path Scripted.respond 5 "emojis/new"
    (Scripted.init [Scripted.error "RATE_LIMIT_EXCEEDED"; JArr []])
  = (Raise TypeError, mk_state [JArr []] [Sent (PostDriveFolders JNull)] 0 0).
Proof.
  exact (proj2 (listing_error_body_is_type_error Scripted.world Scripted.respond 5
                  (Scripted.init [Scripted.error "RATE_LIMIT_EXCEEDED"; JArr []])
                  JNull "error"
                  (JObj [("code", JStr "RATE_LIMIT_EXCEEDED"); ("message", JStr "...")])
                  [] [JArr []] eq_refl)
           eq_refl "emojis/new").
Defined.

(** X6.  A success body without ["id"]: after an upload the function
    raises when it logs the id, so the task ends there with the file sent;
    after an emoji creation [start] has already counted the success when
    the logging raises, so the run ends with an exception and a success
    counter that includes the task. *)
Theorem success_body_without_id :
  forall (W : Type) (respond : request -> W -> json * W)
         (guess_type : string -> option string) (fuel : nat)
         (emoji_dict : gmap string json) (folder_id : json) (o : options)
         (p : Path) (st : state (W := W)) (e : exn),
    in_index (derive_name p) emoji_dict = false ->
    (forall n w' w'' body,
        let req := upload_request guess_type p folder_id in
        limited respond n req (remote st) = Some w' ->
        respond req w' = (body, w'') ->
        is_success body = true ->
        Py.getitem body "id" = Raise e ->
        upload_one respond guess_type (n + S fuel) emoji_dict folder_id o p st
        = (Raise e, after st w'' (retries n req ++ [Sent req]))) /\
    (forall st1 file_data file_id body w2,
        drive_upload_file respond guess_type fuel p folder_id (PathLib.name p) st
        = (Ok file_data, st1) ->
        Py.getitem file_data "id" = Ok file_id ->
        respond (add_request o p file_id) (remote st1) = (body, w2) ->
        is_success body = true ->
        Py.getitem body "id" = Raise e ->
        upload_one respond guess_type fuel emoji_dict folder_id o p st
        = (Raise e,
           mk_state w2 (events st1 ++ [Sent (add_request o p file_id)])
                    (S (success_count st)) (skipped_count st))).
Proof.
  intros W respond guess_type fuel emoji_dict folder_id o p st e H. split.
  - intros n w' w'' body req Hl Hr Hs Hi.
    apply upload_one_upload_raised; [exact H|].
    unfold drive_upload_file, bind.
    rewrite (upload_loop_limited _ _ _ _ _ _ _ _ _ Hl).
    erewrite upload_loop_success; [|simpl; exact Hr|exact Hs].
    rewrite after_after. unfold lift. rewrite Hi. reflexivity.
  - intros st1 file_data file_id body w2 Hu Hid Hr Hs Hi.
    pose proof (drive_upload_file_keeps respond guess_type fuel p folder_id
                  (PathLib.name p) st) as [Hsc Hkc].
    rewrite Hu in Hsc, Hkc. simpl in Hsc, Hkc.
    unfold add_request in Hr.
    unfold upload_one, bind. rewrite H, Hu. unfold lift. rewrite Hid.
    unfold emoji_add. rewrite (send_eq _ _ _ _ _ Hr).
    rewrite (is_success_contains _ Hs). simpl. rewrite Hi, Hsc, Hkc. reflexivity.
Qed.

(** The creation of "cat" is answered with an empty dict. *)
Lemma success_body_without_id_witness :
  upload_one Scripted.respond Scripted.guess_type 1 ∅ JNull Scripted.no_options
    ["cat.png"] (Scripted.init [Scripted.record "f1" "cat.png"; JObj []])
  = (Raise (KeyError "id"),
     mk_state []
       [Sent (PostDriveFilesCreate ["cat.png"] "cat.png" "image/png" JNull);
        Sent (PostEmojiAdd "cat" (JStr "f1") "" "" false false)] 1 0).
Proof.
  exact (proj2 (success_body_without_id Scripted.world Scripted.respond
                  Scripted.guess_type 1 ∅ JNull Scripted.no_options ["cat.png"]
                  (Scripted.init [Scripted.record "f1" "cat.png"; JObj []])
                  (KeyError "id") eq_refl)
           (mk_state [JObj []]
              [Sent (PostDriveFilesCreate ["cat.png"] "cat.png" "image/png" JNull)]
              0 0)
           (Scripted.record "f1" "cat.png") (JStr "f1") (JObj []) []
           eq_refl eq_refl eq_refl eq_refl eq_refl).
Defined.

(** ** The shape of the traces *)

Section Traces.

Context {W : Type}.
Variable respond : request -> W -> json * W.
Variable guess_type : string -> option string.

Lemma loop_trace_retry {A : Type} fuel req (st : state (W := W)) w'
    (run : result A * state (W := W)) :
  loop_trace fuel req (after st w' [Sent req; Slept RATE_LIMIT_WAIT]) run ->
  loop_trace (S fuel) req st run.
Proof.
  intros [n Hn]. exists (S n). unfold after in Hn. simpl in Hn.
  destruct (fst run); simpl; rewrite <- app_assoc in Hn; simpl in Hn;
    (split; [lia|tauto]).
Qed.

Lemma create_drive_folder_trace fuel name pid (st : state (W := W)) :
  loop_trace fuel (PostDriveFoldersCreate name pid) st
             (create_drive_folder respond fuel name pid st).
Proof.
  revert st. induction fuel as [|fuel IH]; intros st.
  - exists 0. simpl. rewrite app_nil_r. auto.
  - destruct (respond (PostDriveFoldersCreate name pid) (remote st))
      as [body w'] eqn:Hr.
    assert (Hlast : forall r : result json,
               r <> OutOfFuel ->
               loop_trace (S fuel) (PostDriveFoldersCreate name pid) st
                 (r, after st w' [Sent (PostDriveFoldersCreate name pid)])).
    { intros r Hne. exists 0. destruct r; simpl; try congruence; split; auto; lia. }
    simpl. unfold bind. rewrite (send_eq _ _ _ _ _ Hr). unfold lift. simpl.
    destruct (Py.contains "error" body) as [[]| |] eqn:Hc; simpl;
      try (apply Hlast; discriminate);
      try (exfalso; exact (contains_not_out_of_fuel _ _ Hc)).
    destruct (Py.getitem body "error") as [error| |] eqn:He; simpl;
      try (apply Hlast; discriminate);
      try (exfalso; exact (getitem_not_out_of_fuel _ _ He)).
    destruct (Py.getitem error "code") as [code| |] eqn:Hk; simpl;
      try (apply Hlast; discriminate);
      try (exfalso; exact (getitem_not_out_of_fuel _ _ Hk)).
    destruct (Py.eq_str code "RATE_LIMIT_EXCEEDED"); simpl;
      try (apply Hlast; discriminate).
    eapply loop_trace_retry. unfold after. simpl. rewrite <- app_assoc. apply IH.
Qed.

Lemma upload_loop_trace fuel file pid name mime (st : state (W := W)) :
  loop_trace fuel (PostDriveFilesCreate file name mime pid) st
             (drive_upload_file_loop respond fuel file pid name mime st).
Proof.
  revert st. induction fuel as [|fuel IH]; intros st.
  - exists 0. simpl. rewrite app_nil_r. auto.
  - destruct (respond (PostDriveFilesCreate file name mime pid) (remote st))
      as [body w'] eqn:Hr.
    assert (Hlast : forall r : result json,
               r <> OutOfFuel ->
               loop_trace (S fuel) (PostDriveFilesCreate file name mime pid) st
                 (r, after st w' [Sent (PostDriveFilesCreate file name mime pid)])).
    { intros r Hne. exists 0. destruct r; simpl; try congruence; split; auto; lia. }
    simpl. unfold bind. rewrite (send_eq _ _ _ _ _ Hr). unfold lift. simpl.
    destruct (Py.contains "error" body) as [[]| |] eqn:Hc; simpl;
      try (apply Hlast; discriminate);
      try (exfalso; exact (contains_not_out_of_fuel _ _ Hc)).
    destruct (Py.getitem body "error") as [error| |] eqn:He; simpl;
      try (apply Hlast; discriminate);
      try (exfalso; exact (getitem_not_out_of_fuel _ _ He)).
    destruct (Py.getitem error "code") as [code| |] eqn:Hk; simpl;
      try (apply Hlast; discriminate);
      try (exfalso; exact (getitem_not_out_of_fuel _ _ Hk)).
    destruct (Py.eq_str code "RATE_LIMIT_EXCEEDED"); simpl;
      try (apply Hlast; discriminate).
    eapply loop_trace_retry. unfold after. simpl. rewrite <- app_assoc. apply IH.
Qed.

Lemma drive_upload_file_trace fuel file pid name (st : state (W := W)) :
  loop_trace fuel (PostDriveFilesCreate file name (mime_of guess_type name) pid) st
             (drive_upload_file respond guess_type fuel file pid name st).
Proof.
  unfold drive_upload_file, bind.
  pose proof (upload_loop_trace fuel file pid name (mime_of guess_type name) st)
    as [n Hn].
  destruct (drive_upload_file_loop respond fuel file pid name
              (mime_of guess_type name) st) as [[data| |] st1];
    simpl in Hn; try (exists n; exact Hn).
  unfold lift. destruct (Py.getitem data "id") eqn:Hi; try (exists n; exact Hn).
  exfalso. exact (getitem_not_out_of_fuel _ _ Hi).
Qed.

End Traces.

(** X7.  Whatever the remote answers, when [create_drive_folder] returns
    or raises, and when [drive_upload_file] returns, what it has sent is its
    one request repeated, with exactly one sleep of [RATE_LIMIT_WAIT] after
    every attempt but the last, and nothing else; while the iteration
    budget of the model lasts [create_drive_folder] is only ever left by a
    return or an exception. *)
Theorem retry_loops_alternate_request_and_sleep :
  forall (W : Type) (respond : request -> W -> json * W)
         (guess_type : string -> option string) (fuel : nat)
         (st : state (W := W)),
    (forall name parent_id,
        loop_trace fuel (PostDriveFoldersCreate name parent_id) st
          (create_drive_folder respond fuel name parent_id st)) /\
    (forall file folder_id file_name data st',
        drive_upload_file respond guess_type fuel file folder_id file_name st
        = (Ok data, st') ->
        let req := PostDriveFilesCreate file file_name
                     (mime_of guess_type file_name) folder_id in
        exists n, (n < fuel)%nat /\
                  events st' = events st ++ retries n req ++ [Sent req]).
Proof.
  intros W respond guess_type fuel st. split.
  - intros name parent_id. apply create_drive_folder_trace.
  - intros file folder_id file_name data st' Hrun req.
    destruct (drive_upload_file_trace respond guess_type fuel file folder_id
                file_name st) as [n Hn].
    rewrite Hrun in Hn. simpl in Hn. exists n. exact Hn.
Qed.

(** The upload of [cat.png] is rate-limited once. *)
Lemma retry_loops_alternate_request_and_sleep_witness :
  exists n, (n < 2)%nat /\
    [Sent (PostDriveFilesCreate ["cat.png"] "cat.png" "image/png" JNull); Slept 60;
     Sent (PostDriveFilesCreate ["cat.png"] "cat.png" "image/png" JNull)]
    = [] ++ retries n (PostDriveFilesCreate ["cat.png"] "cat.png" "image/png" JNull)
         ++ [Sent (PostDriveFilesCreate ["cat.png"] "cat.png" "image/png" JNull)].
Proof.
  exact (proj2 (retry_loops_alternate_request_and_sleep Scripted.world
                  Scripted.respond Scripted.guess_type 2
                  (Scripted.init [Scripted.error "RATE_LIMIT_EXCEEDED";
                                  Scripted.record "f1" "cat.png"]))
           ["cat.png"] JNull "cat.png" (Scripted.record "f1" "cat.png") _ eq_refl).
Defined.

(** ** The requests of the resolver *)

Lemma split_length sep s : length (Str.split sep s) = S (Str.count sep s).
Proof.
  induction s as [|c s IH]; simpl; [reflexivity|].
  destruct (Ascii.eqb c sep); simpl; [rewrite IH; reflexivity|].
  destruct (Str.split sep s); simpl in *; lia.
Qed.

Lemma count_events_retries_create p n name pid :
  (forall seconds, p (Slept seconds) = false) ->
  count_events p (retries n (PostDriveFoldersCreate name pid))
  = (n * count_events p [Sent (PostDriveFoldersCreate name pid)])%nat.
Proof.
  intros Hs. induction n as [|n IH]; [reflexivity|].
  change (retries (S n) (PostDriveFoldersCreate name pid))
    with ([Sent (PostDriveFoldersCreate name pid); Slept RATE_LIMIT_WAIT]
          ++ retries n (PostDriveFoldersCreate name pid)).
  rewrite count_events_app, IH. unfold count_events. simpl. rewrite Hs.
  destruct (p (Sent (PostDriveFoldersCreate name pid))); simpl; lia.
Qed.

Section ResolverRequests.

Context {W : Type}.
Variable respond : request -> W -> json * W.

Lemma resolver_loop_requests fuel segs pid fd (st st' : state (W := W)) q fd' :
  create_drive_folder_path_loop respond fuel segs pid fd st = (Ok (q, fd'), st') ->
  exists evs,
    events st' = events st ++ evs /\
    count_events is_listing evs = length segs /\
    count_events is_folder_show evs = 0 /\
    (count_events is_folder_create evs = 0 -> fd' = fd) /\
    (count_events is_folder_create evs <> 0 -> fd' <> None).
Proof.
  revert pid fd st. induction segs as [|seg segs IH]; intros pid fd st; simpl.
  - intros [= <- <- <-]. exists []. rewrite app_nil_r. repeat split; auto.
  - unfold bind at 1, drive_get_folders, send.
    destruct (respond (PostDriveFolders pid) (remote st)) as [folders w1].
    unfold bind at 1, lift at 1.
    destruct (Py.iter folders) as [fs| |]; try discriminate.
    unfold bind at 1, lift at 1.
    destruct (find_folder seg fs) as [[i|]| |]; try discriminate.
    + intros Hrun. destruct (IH _ _ _ Hrun) as (evs & He & Hl & Hs & Hz & Hnz).
      exists (Sent (PostDriveFolders pid) :: evs). simpl in He.
      rewrite He, <- app_assoc. unfold count_events in *. simpl.
      repeat split; auto.
    + unfold bind at 1.
      match goal with
      | |- context [create_drive_folder respond fuel seg pid ?s] =>
          pose proof (create_drive_folder_trace respond fuel seg pid s) as [n Hn];
          destruct (create_drive_folder respond fuel seg pid s) as [[data| |] st2]
      end; try discriminate.
      simpl in Hn. destruct Hn as [_ Hn].
      unfold bind at 1, lift at 1.
      destruct (Py.getitem data "id") as [i| |]; try discriminate.
      intros Hrun. destruct (IH _ _ _ Hrun) as (evs & He & Hl & Hs & Hz & Hnz).
      exists (Sent (PostDriveFolders pid)
              :: retries n (PostDriveFoldersCreate seg pid)
              ++ Sent (PostDriveFoldersCreate seg pid) :: evs).
      split.
      { rewrite He, Hn. rewrite <- !app_assoc. reflexivity. }
      change (Sent (PostDriveFolders pid)
              :: retries n (PostDriveFoldersCreate seg pid)
              ++ Sent (PostDriveFoldersCreate seg pid) :: evs)
        with ([Sent (PostDriveFolders pid)]
              ++ retries n (PostDriveFoldersCreate seg pid)
              ++ [Sent (PostDriveFoldersCreate seg pid)] ++ evs).
      rewrite !count_events_app.
      rewrite !count_events_retries_create by reflexivity.
      change (count_events is_listing [Sent (PostDriveFolders pid)]) with 1%nat.
      change (count_events is_folder_show [Sent (PostDriveFolders pid)]) with 0%nat.
      change (count_events is_folder_create [Sent (PostDriveFolders pid)]) with 0%nat.
      change (count_events is_listing [Sent (PostDriveFoldersCreate seg pid)])
        with 0%nat.
      change (count_events is_folder_show [Sent (PostDriveFoldersCreate seg pid)])
        with 0%nat.
      change (count_events is_folder_create [Sent (PostDriveFoldersCreate seg pid)])
        with 1%nat.
      split; [simpl; lia|]. split; [lia|]. split; [lia|]. intros _.
      destruct (Nat.eq_dec (count_events is_folder_create evs) 0) as [H0|H0].
      * rewrite (Hz H0). discriminate.
      * apply Hnz, H0.
Qed.

End ResolverRequests.

(** X8.  Whatever the remote answers, a resolution that returns has sent
    exactly one listing for each segment of the path, that is one more than
    the path has slashes (empty segments included), and one show-folder
    request exactly when it sent no creation request. *)
Theorem resolver_request_counts :
  forall (W : Type) (respond : request -> W -> json * W) (fuel : nat)
         (path : string) (st st' : state (W := W)) (folder_data : json),
    create_drive_folder_path respond fuel path st = (Ok folder_data, st') ->
    exists evs,
      events st' = events st ++ evs /\
      count_events is_listing evs = S (Str.count "/" path) /\
      count_events is_folder_show evs
      = (if Nat.eqb (count_events is_folder_create evs) 0 then 1 else 0)%nat.
Proof.
  intros W respond fuel path st st' folder_data.
  unfold create_drive_folder_path, bind.
  destruct (create_drive_folder_path_loop respond fuel (Str.split "/" path) JNull
              None st) as [[[q fd']| |] st1] eqn:Hloop; try discriminate.
  destruct (resolver_loop_requests respond fuel _ _ _ _ _ _ _ Hloop)
    as (evs & He & Hl & Hs & Hz & Hnz).
  rewrite split_length in Hl. simpl.
  destruct fd' as [d|].
  - intros [= <- <-]. exists evs. split; [exact He|]. split; [exact Hl|].
    destruct (Nat.eqb_spec (count_events is_folder_create evs) 0) as [H0|H0];
      [|exact Hs].
    specialize (Hz H0). discriminate.
  - unfold drive_show_folders, send.
    destruct (respond (PostDriveFoldersShow q) (remote st1)) as [body w2].
    intros [= <- <-]. exists (evs ++ [Sent (PostDriveFoldersShow q)]).
    simpl. rewrite He, <- app_assoc. split; [reflexivity|].
    rewrite !count_events_app, Hl, Hs.
    change (count_events is_listing [Sent (PostDriveFoldersShow q)]) with 0%nat.
    change (count_events is_folder_show [Sent (PostDriveFoldersShow q)]) with 1%nat.
    change (count_events is_folder_create [Sent (PostDriveFoldersShow q)]) with 0%nat.
    split; [lia|].
    destruct (Nat.eqb_spec (count_events is_folder_create evs + 0) 0) as [H0|H0];
      [reflexivity|].
    exfalso. apply Hnz; [lia|reflexivity].
Qed.

(** ["a//b"] has three segments, the middle one empty; here all three are
    found. *)
Lemma resolver_request_counts_witness :
  exists evs,
    [Sent (PostDriveFolders JNull); Sent (PostDriveFolders (JStr "1"));
     Sent (PostDriveFolders (JStr "2")); Sent (PostDriveFoldersShow (JStr "3"))]
    = [] ++ evs /\
    count_events is_listing evs = 3 /\
    count_events is_folder_show evs
    = (if Nat.eqb (count_events is_folder_create evs) 0 then 1 else 0)%nat.
Proof.
  exact (resolver_request_counts Scripted.world Scripted.respond 1 "a//b"
           (Scripted.init [JArr [Scripted.record "1" "a"];
                           JArr [Scripted.record "2" ""];
                           JArr [Scripted.record "3" "b"];
                           Scripted.record "3" "b"])
           _ (Scripted.record "3" "b") eq_refl).
Defined.

(** ** Derived names again *)

Lemma before_first_id sep s : Str.count sep s = 0 -> Str.before_first sep s = s.
Proof.
  induction s as [|c s IH]; simpl; [reflexivity|].
  destruct (Ascii.eqb c sep); simpl; [discriminate|].
  intros H. rewrite IH by exact H. reflexivity.
Qed.

Lemma lower_replace_fixed s :
  Str.replace "-" "_" (Str.lower (Str.replace "-" "_" (Str.lower s)))
  = Str.replace "-" "_" (Str.lower s).
Proof.
  induction s as [|c s IH]; simpl; [reflexivity|]. rewrite IH. f_equal.
  destruct c as [[] [] [] [] [] [] [] []]; reflexivity.
Qed.

Lemma derive_name_spec p : derive_name p = derive_spec (PathLib.name p).
Proof.
  unfold derive_name, derive_spec. rewrite split_hd, before_first_stem. reflexivity.
Qed.

(** X9.  Deriving is idempotent: a file whose base name is already a
    derived name keeps it.  And two files whose base names agree up to the
    first dot derive the same emoji name, so that only the first of them
    can be created in a run (the second is answered as a duplicate). *)
Theorem derive_name_fixed_point_and_collisions :
  (forall p : Path, derive_name [derive_name p] = derive_name p) /\
  (forall p q : Path,
      Str.before_first "." (PathLib.name p) = Str.before_first "." (PathLib.name q) ->
      derive_name p = derive_name q).
Proof.
  split.
  - intros p. rewrite !derive_name_spec.
    change (PathLib.name [derive_spec (PathLib.name p)])
      with (derive_spec (PathLib.name p)).
    unfold derive_spec at 1.
    rewrite before_first_id.
    + unfold derive_spec. apply lower_replace_fixed.
    + unfold derive_spec. rewrite count_dot_derived. apply before_first_no_sep.
  - intros p q H. rewrite !derive_name_spec. unfold derive_spec. rewrite H.
    reflexivity.
Qed.

(** [party.png] and [party.v2.gif] collide. *)
Lemma derive_name_fixed_point_and_collisions_witness :
  derive_name ["party.png"] = derive_name ["party.v2.gif"].
Proof.
  exact (proj2 derive_name_fixed_point_and_collisions ["party.png"] ["party.v2.gif"]
           eq_refl).
Defined.

(** ** The order of the tasks *)

Section Order.

Context {W : Type}.
Variable respond : request -> W -> json * W.
Variable guess_type : string -> option string.

Lemma upload_one_block fuel emoji_dict folder_id o p (st : state (W := W)) :
  exists block,
    events (snd (upload_one respond guess_type fuel emoji_dict folder_id o p st))
    = events st ++ block /\
    task_block emoji_dict folder_id p block.
Proof.
  unfold task_block.
  destruct (in_index (derive_name p) emoji_dict) eqn:H.
  - exists []. rewrite (upload_one_skip _ _ _ _ _ _ _ _ H). simpl.
    rewrite app_nil_r. auto.
  - destruct (upload_one_emitting respond guess_type fuel emoji_dict folder_id o p H st)
      as (block & He & HP).
    exists block. split; [exact He|]. split; [exact HP|discriminate].
Qed.

Lemma start_loop_blocks fuel emoji_dict folder_id o tasks (st : state (W := W)) :
  let run := start_loop respond guess_type fuel emoji_dict folder_id o tasks st in
  exists blocks,
    events (snd run) = events st ++ concat blocks /\
    Forall2 (task_block emoji_dict folder_id) (take (length blocks) tasks) blocks /\
    (length blocks <= length tasks)%nat /\
    (fst run = Ok tt -> length blocks = length tasks).
Proof.
  revert st. induction tasks as [|p tasks IH]; intros st; simpl.
  - exists []. simpl. rewrite app_nil_r.
    split; [reflexivity|]. split; [constructor|]. split; [lia|reflexivity].
  - unfold bind.
    destruct (upload_one_block fuel emoji_dict folder_id o p st)
      as (block & He & Hb).
    destruct (upload_one respond guess_type fuel emoji_dict folder_id o p st)
      as [[[]| |] st1]; simpl in He.
    + destruct (IH st1) as (blocks & Hes & Hf & Hlen & Hok).
      exists (block :: blocks). simpl.
      rewrite Hes, He, <- app_assoc. split; [reflexivity|].
      split; [constructor; assumption|]. split; [lia|].
      intros Hr. rewrite (Hok Hr). reflexivity.
    + exists [block]. simpl. rewrite app_nil_r. split; [exact He|].
      split; [constructor; [exact Hb|destruct tasks; constructor]|].
      split; [lia|discriminate].
    + exists [block]. simpl. rewrite app_nil_r. split; [exact He|].
      split; [constructor; [exact Hb|destruct tasks; constructor]|].
      split; [lia|discriminate].
Qed.

End Order.

(** X10.  Whatever the remote answers and however the loop ends, what the
    loop of [start] sends is one block of events per task, in the order of
    the task list, for the tasks reached: the block of a task holds only
    uploads of that very file, under its full base name and into the one
    resolved folder, sleeps of [RATE_LIMIT_WAIT], and creations under its
    derived name; it is empty when the name was in the index.  A loop that
    ends normally has a block for every task. *)
Theorem tasks_are_processed_in_order :
  forall (W : Type) (respond : request -> W -> json * W)
         (guess_type : string -> option string) (fuel : nat)
         (emoji_dict : gmap string json) (folder_id : json) (o : options)
         (tasks : list Path) (st : state (W := W)),
    let run := start_loop respond guess_type fuel emoji_dict folder_id o tasks st in
    exists blocks,
      events (snd run) = events st ++ concat blocks /\
      Forall2 (task_block emoji_dict folder_id) (take (length blocks) tasks) blocks /\
      (length blocks <= length tasks)%nat /\
      (fst run = Ok tt -> length blocks = length tasks).
Proof.
  intros W respond guess_type fuel emoji_dict folder_id o tasks st.
  apply start_loop_blocks.
Qed.

(** X11.  A run with an empty [drive_path] never asks about folders: what
    [start] sends is the listing of the emojis and then, if the index could
    be built, the blocks of the tasks in order, every upload going to the
    root ([folderId] null). *)
Theorem root_run_sends_no_folder_request :
  forall (W : Type) (respond : request -> W -> json * W)
         (guess_type : string -> option string) (fuel : nat)
         (tasks : list Path) (o : options) (st0 : state (W := W)),
    let run := start respond guess_type fuel tasks "" o st0 in
    exists emoji_dict blocks,
      events (snd run) = events st0 ++ Sent GetEmojis :: concat blocks /\
      Forall2 (task_block emoji_dict JNull) (take (length blocks) tasks) blocks /\
      (forall summary, fst run = Ok summary -> length blocks = length tasks).
Proof.
  intros W respond guess_type fuel tasks o st0.
  unfold start, start_setup, emojis_get_current_list, bind, reset_counters, send.
  simpl. destruct (respond GetEmojis (remote st0)) as [body w].
  assert (Hnone : forall r : result RunSummary,
             (forall summary, r <> Ok summary) ->
             exists (emoji_dict : gmap string json) blocks,
               events st0 ++ [Sent GetEmojis]
               = events st0 ++ Sent GetEmojis :: concat blocks /\
               Forall2 (task_block emoji_dict JNull) (take (length blocks) tasks)
                       blocks /\
               (forall summary, r = Ok summary -> length blocks = length tasks)).
  { intros r Hr. exists ∅, []. simpl. split; [reflexivity|].
    split; [constructor|]. intros summary H. destruct (Hr _ H). }
  unfold lift.
  destruct (Py.getitem body "emojis") as [listing| |]; simpl;
    try (apply Hnone; discriminate).
  destruct (Py.iter listing) as [emojis| |]; simpl; try (apply Hnone; discriminate).
  destruct (emoji_index emojis ∅) as [idx| |]; simpl; try (apply Hnone; discriminate).
  destruct (start_loop_blocks respond guess_type fuel idx JNull o tasks
              (mk_state w (events st0 ++ [Sent GetEmojis]) 0 0))
    as (blocks & He & Hf & Hlen & Hok).
  exists idx, blocks.
  destruct (start_loop respond guess_type fuel idx JNull o tasks
              (mk_state w (events st0 ++ [Sent GetEmojis]) 0 0))
    as [[[]| |] st1]; simpl in *; rewrite He, <- app_assoc;
    (split; [reflexivity|]); (split; [exact Hf|]); try discriminate.
  intros summary _. apply Hok. reflexivity.
Qed.

(** [cat.png] is uploaded and created; the upload of [dog.png] fails. *)
Lemma tasks_are_processed_in_order_witness :
  exists blocks,
    [Sent (PostDriveFilesCreate ["cat.png"] "cat.png" "image/png" JNull);
     Sent (PostEmojiAdd "cat" (JStr "f1") "" "" false false);
     Sent (PostDriveFilesCreate ["dog.png"] "dog.png" "image/png" JNull)]
    = [] ++ concat blocks /\
    Forall2 (task_block ∅ JNull)
            (take (length blocks) [["cat.png"]; ["dog.png"]; ["eel.png"]]) blocks /\
    (length blocks <= 3)%nat /\
    (Raise (RuntimeError (JObj [("code", JStr "NO_SUCH_FOLDER");
                                ("message", JStr "...")])) = Ok tt ->
     length blocks = 3).
Proof.
  exact (tasks_are_processed_in_order Scripted.world Scripted.respond
           Scripted.guess_type 1 ∅ JNull Scripted.no_options
           [["cat.png"]; ["dog.png"]; ["eel.png"]]
           (Scripted.init [Scripted.record "f1" "cat.png"; Scripted.record "e1" "cat";
                           Scripted.error "NO_SUCH_FOLDER"])).
Defined.

(** One task, already registered. *)
Lemma root_run_sends_no_folder_request_witness :
  exists (emoji_dict : gmap string json) blocks,
    [Sent GetEmojis] = [] ++ Sent GetEmojis :: concat blocks /\
    Forall2 (task_block emoji_dict JNull) (take (length blocks) [["cat.png"]]) blocks /\
    (forall summary, Ok (mk_summary 1 0 1) = Ok summary -> length blocks = 1).
Proof.
  exact (root_run_sends_no_folder_request Scripted.world Scripted.respond
           Scripted.guess_type 1 [["cat.png"]] Scripted.no_options
           (Scripted.init [JObj [("emojis", JArr [Scripted.record "e0" "cat"])]])).
Defined.

(** ** Rate limits inside the resolver *)

(** X12.  The resolver absorbs rate limits on a folder creation: for a
    segment that its listing does not hold, after any number [n] of
    rate-limit answers to the creation and then a success body with an
    ["id"], the loop goes on under that id with the new record as
    [folder_data]; the events are the listing, the [n] retried attempts
    with their sleeps, and the last attempt. *)
Theorem resolver_retries_creation :
  forall (W : Type) (respond : request -> W -> json * W) (n fuel : nat)
         (folder : string) (rest : list string) (parent_id : json)
         (folder_data : option json) (st : state (W := W))
         (folders : json) (fs : list json) (w1 w2 w3 : W) (data i : json),
    let listing := PostDriveFolders parent_id in
    let creation := PostDriveFoldersCreate folder parent_id in
    respond listing (remote st) = (folders, w1) ->
    Py.iter folders = Ok fs ->
    find_folder folder fs = Ok None ->
    limited respond n creation w1 = Some w2 ->
    respond creation w2 = (data, w3) ->
    is_success data = true ->
    Py.getitem data "id" = Ok i ->
    create_drive_folder_path_loop respond (n + S fuel) (folder :: rest) parent_id
      folder_data st
    = create_drive_folder_path_loop respond (n + S fuel) rest i (Some data)
        (after st w3 (Sent listing :: retries n creation ++ [Sent creation])).
Proof.
  intros W respond n fuel folder rest parent_id folder_data st folders fs
         w1 w2 w3 data i listing creation Hr Hi Hf Hl Hc Hs Hid.
  subst listing creation.
  rewrite (segment_missing respond _ _ _ _ _ _ _ _ _ Hr Hi Hf).
  unfold bind at 1.
  rewrite (create_drive_folder_limited respond n (S fuel) folder parent_id
             (after st w1 [Sent (PostDriveFolders parent_id)]) w2 Hl).
  erewrite create_drive_folder_success; [|simpl; exact Hc|exact Hs].
  unfold bind, lift. rewrite Hid. rewrite !after_after. reflexivity.
Qed.

(** The creation of "emojis" is rate-limited once. *)
Lemma resolver_retries_creation_witness :
  create_drive_folder_path_loop Scripted.respond 2 ["emojis"] JNull None
    (Scripted.init [JArr []; Scripted.error "RATE_LIMIT_EXCEEDED";
                    Scripted.record "7" "emojis"])
  = (Ok (JStr "7", Some (Scripted.record "7" "emojis")),
     mk_state []
       [Sent (PostDriveFolders JNull);
        Sent (PostDriveFoldersCreate "emojis" JNull); Slept 60;
        Sent (PostDriveFoldersCreate "emojis" JNull)] 0 0).
Proof.
  exact (resolver_retries_creation Scripted.world Scripted.respond 1 0 "emojis" []
           JNull None
           (Scripted.init [JArr []; Scripted.error "RATE_LIMIT_EXCEEDED";
                           Scripted.record "7" "emojis"])
           (JArr []) []
           [Scripted.error "RATE_LIMIT_EXCEEDED"; Scripted.record "7" "emojis"]
           [Scripted.record "7" "emojis"] [] (Scripted.record "7" "emojis") (JStr "7")
           eq_refl eq_refl eq_refl eq_refl eq_refl eq_refl eq_refl).
Defined.

(** ** The resolver on a drive that nobody else changes *)

Section QuietDrive.

Import Misskey Quiet.

Lemma lookup_some parent name fs i :
  lookup parent name fs = Some i ->
  exists f, In f fs /\ folder_id f = i /\ folder_name f = name /\
            same_id (parentId f) parent = true.
Proof.
  induction fs as [|f fs IH]; simpl; [discriminate|].
  destruct (same_id (parentId f) parent) eqn:Hs; simpl.
  - destruct (String.eqb (folder_name f) name) eqn:Hn.
    + intros [= <-]. apply String.eqb_eq in Hn. exists f. auto.
    + intros H. destruct (IH H) as (g & Hg & Hrest). exists g. auto.
  - intros H. destruct (IH H) as (g & Hg & Hrest). exists g. auto.
Qed.

Lemma same_id_str p i : same_id p (JStr i) = true -> p = Some i.
Proof.
  destruct p as [s|]; simpl; [|discriminate].
  intros H. apply String.eqb_eq in H. congruence.
Qed.

Lemma at_folder_as_id m parent :
  at_folder m parent ->
  exists p, as_id parent = Some p /\
            (forall i, p = Some i -> exists f, In f (folders m) /\ folder_id f = i).
Proof.
  intros [->|(f & Hf & ->)].
  - exists None. split; [reflexivity|discriminate].
  - exists (Some (folder_id f)). split; [reflexivity|].
    intros i [= <-]. eauto.
Qed.

(** Creating a folder under the root or under an existing folder keeps the
    instance well formed, and the new folder has no children. *)
Lemma create_keeps_well_formed m name p :
  well_formed m ->
  (forall i, p = Some i -> exists f, In f (folders m) /\ folder_id f = i) ->
  let g := mk_folder (pretty (next_id m)) name p in
  let m1 := mk_instance (folders m ++ [g]) (files m) (emojis m) (S (next_id m)) in
  well_formed m1 /\
  (forall h, In h (folders m1) -> parentId h <> Some (folder_id g)).
Proof.
  intros (Hu & Hfresh & Hpar) Hp g m1.
  assert (Hold : forall f, In f (folders m) -> folder_id f <> folder_id g).
  { intros f Hf. apply (Hfresh f (next_id m) Hf). lia. }
  split; [split; [|split]|].
  - intros f1 f2 H1 H2 He. simpl in H1, H2.
    apply in_app_iff in H1. apply in_app_iff in H2.
    destruct H1 as [H1|[<-|[]]], H2 as [H2|[<-|[]]]; auto.
    + destruct (Hold f1 H1 He).
    + symmetry in He. destruct (Hold f2 H2 He).
  - intros f j Hf Hj. simpl in Hf, Hj. apply in_app_iff in Hf.
    destruct Hf as [Hf|[<-|[]]].
    + apply Hfresh; [exact Hf|lia].
    + simpl. intros He. apply (inj pretty) in He. lia.
  - intros f q Hf Hq. simpl in Hf. apply in_app_iff in Hf. simpl.
    destruct Hf as [Hf|[<-|[]]].
    + destruct (Hpar f q Hf Hq) as (h & Hh & Hid). exists h.
      split; [apply in_app_iff; auto|exact Hid].
    + simpl in Hq. destruct (Hp q Hq) as (h & Hh & Hid). exists h.
      split; [apply in_app_iff; auto|exact Hid].
  - intros h Hh Hq. simpl in Hh. apply in_app_iff in Hh.
    destruct Hh as [Hh|[<-|[]]].
    + destruct (Hpar h _ Hh Hq) as (h' & Hh' & Hid). exact (Hold h' Hh' Hid).
    + simpl in Hq. destruct (Hp _ Hq) as (h' & Hh' & Hid). exact (Hold h' Hh' Hid).
Qed.

Lemma last_cons_default (x d : string) l : List.last (x :: l) d = List.last l x.
Proof.
  revert x d. induction l as [|y l IH]; intros x d; [reflexivity|].
  change (List.last (x :: y :: l) d) with (List.last (y :: l) d).
  rewrite !IH. reflexivity.
Qed.

(** One segment, from the root or from a folder. *)
Lemma quiet_segment fuel seg rest parent folder_data m ev s k :
  well_formed m -> at_folder m parent -> fresh_record m parent folder_data ->
  exists i folder_data' m' evs extra,
    create_drive_folder_path_loop respond (S fuel) (seg :: rest) parent folder_data
      (mk_state m ev s k)
    = create_drive_folder_path_loop respond (S fuel) rest (JStr i) folder_data'
        (mk_state m' (ev ++ evs) s k) /\
    well_formed m' /\ named m' (JStr i) seg /\
    fresh_record m' (JStr i) folder_data' /\
    folders m' = folders m ++ extra /\
    lookup parent seg (folders m') = Some i.
Proof.
  intros Hwf Hat Hfd.
  destruct (lookup parent seg (folders m)) as [i|] eqn:Hl.
  - destruct (lookup_some _ _ _ _ Hl) as (f & Hf & Hid & Hname & Hsame).
    assert (Hnone : folder_data = None).
    { destruct folder_data as [d|]; [|reflexivity]. exfalso.
      destruct Hfd as (f0 & Hf0 & _ & -> & Hchild).
      apply (Hchild f Hf). apply same_id_str, Hsame. }
    subst folder_data.
    exists i, None, m, [Sent (PostDriveFolders parent)], [].
    split; [|split; [exact Hwf|split; [|split; [exact I|split]]]].
    + erewrite segment_found;
        [|reflexivity|reflexivity
         |simpl; rewrite find_folder_children, Hl; reflexivity].
      reflexivity.
    + exists f. subst i. auto.
    + rewrite app_nil_r. reflexivity.
    + exact Hl.
  - destruct (at_folder_as_id m parent Hat) as (p & Ha & Hp).
    pose (g := mk_folder (pretty (next_id m)) seg p).
    pose (m1 := mk_instance (folders m ++ [g]) (files m) (emojis m) (S (next_id m))).
    destruct (create_keeps_well_formed m seg p Hwf Hp) as [Hwf1 Hchild].
    fold g in Hwf1, Hchild. fold m1 in Hwf1, Hchild.
    assert (Hg : In g (folders m1)) by (simpl; apply in_app_iff; simpl; auto).
    exists (folder_id g), (Some (folder_json g)), m1,
      [Sent (PostDriveFolders parent); Sent (PostDriveFoldersCreate seg parent)], [g].
    split; [|split; [exact Hwf1|split; [|split; [|split]]]].
    + erewrite segment_missing;
        [|reflexivity|reflexivity
         |simpl; rewrite find_folder_children, Hl; reflexivity].
      unfold bind at 1.
      erewrite create_drive_folder_success;
        [|simpl; rewrite Ha; reflexivity|reflexivity].
      unfold bind, lift. simpl Py.getitem. cbv iota beta.
      unfold after. simpl remote. simpl events. simpl success_count.
      simpl skipped_count. rewrite <- app_assoc. reflexivity.
    + exists g. auto.
    + exists g. auto.
    + reflexivity.
    + simpl. apply lookup_new; [exact Hl|apply same_id_as_id, Ha|reflexivity].
Qed.

(** The remaining segments, from a folder named [nm]. *)
Lemma quiet_segments fuel segs parent nm folder_data m ev s k :
  well_formed m -> named m parent nm -> fresh_record m parent folder_data ->
  exists q folder_data' m' evs,
    create_drive_folder_path_loop respond (S fuel) segs parent folder_data
      (mk_state m ev s k)
    = (Ok (q, folder_data'), mk_state m' (ev ++ evs) s k) /\
    well_formed m' /\ named m' q (List.last segs nm) /\
    fresh_record m' q folder_data' /\
    (exists extra, folders m' = folders m ++ extra) /\
    walk (folders m') parent segs = Some q.
Proof.
  revert parent nm folder_data m ev.
  induction segs as [|seg segs IH]; intros parent nm folder_data m ev Hwf Hn Hfd.
  - exists parent, folder_data, m, []. simpl. rewrite app_nil_r.
    split; [reflexivity|]. split; [exact Hwf|]. split; [exact Hn|].
    split; [exact Hfd|]. split; [exists []; rewrite app_nil_r|]; reflexivity.
  - assert (Hat : at_folder m parent).
    { destruct Hn as (f & Hf & -> & _). right. eauto. }
    destruct (quiet_segment fuel seg segs parent folder_data m ev s k Hwf Hat Hfd)
      as (i & fd1 & m1 & evs1 & extra1 & Hstep & Hwf1 & Hn1 & Hfd1 & Hx1 & Hl1).
    destruct (IH (JStr i) seg fd1 m1 (ev ++ evs1) Hwf1 Hn1 Hfd1)
      as (q & fd' & m' & evs & Hrun & Hwf' & Hn' & Hfd' & (extra & Hx) & Hw).
    exists q, fd', m', (evs1 ++ evs).
    split; [rewrite Hstep, Hrun, <- app_assoc; reflexivity|].
    split; [exact Hwf'|]. split.
    { rewrite last_cons_default. exact Hn'. }
    split; [exact Hfd'|]. split.
    { exists (extra1 ++ extra). rewrite Hx, Hx1, <- app_assoc. reflexivity. }
    cbn [walk]. rewrite Hx, (lookup_app _ _ _ extra _ Hl1), <- Hx. exact Hw.
Qed.

Lemma unique_find m f :
  unique_ids (folders m) -> In f (folders m) ->
  List.find (fun h => Py.eq_str (JStr (folder_id f)) (folder_id h)) (folders m)
  = Some f.
Proof.
  intros Hu Hf.
  destruct (List.find _ (folders m)) as [h|] eqn:Hfind.
  - apply List.find_some in Hfind. destruct Hfind as [Hh He]. simpl in He.
    apply String.eqb_eq in He. f_equal. symmetry. exact (Hu f h Hf Hh He).
  - exfalso. pose proof (List.find_none _ _ Hfind f Hf) as Hn. simpl in Hn.
    rewrite String.eqb_refl in Hn. discriminate.
Qed.

End QuietDrive.

(** X13.  On a well-formed reference instance that only this resolver
    changes, every resolution returns, and the record it returns is the
    record of the folder that the path leads to from the root in the
    resulting instance; that folder bears the name of the last segment, and
    the instance stays well formed. *)
Theorem quiet_drive_returns_last_folder :
  forall (fuel : nat) (path : string) (m : Misskey.instance)
         (ev : list event) (s k : nat),
    Quiet.well_formed m ->
    exists f m' evs,
      create_drive_folder_path Misskey.respond (S fuel) path (mk_state m ev s k)
      = (Ok (Misskey.folder_json f), mk_state m' (ev ++ evs) s k) /\
      In f (Misskey.folders m') /\
      Misskey.folder_name f = List.last (Str.split "/" path) "" /\
      Misskey.walk (Misskey.folders m') JNull (Str.split "/" path)
      = Some (JStr (Misskey.folder_id f)) /\
      Quiet.well_formed m'.
Proof.
  intros fuel path m ev s k Hwf.
  unfold create_drive_folder_path, bind.
  destruct (split_cons "/" path) as (seg & rest & ->).
  destruct (quiet_segment fuel seg rest JNull None m ev s k Hwf (or_introl eq_refl) I)
    as (i & fd1 & m1 & evs1 & extra1 & Hstep & Hwf1 & Hn1 & Hfd1 & Hx1 & Hl1).
  destruct (quiet_segments fuel rest (JStr i) seg fd1 m1 (ev ++ evs1) s k
              Hwf1 Hn1 Hfd1)
    as (q & fd' & m' & evs & Hrun & Hwf' & Hn' & Hfd' & (extra & Hx) & Hw).
  rewrite Hstep, Hrun. cbn [fst snd].
  destruct Hn' as (f & Hf & -> & Hname).
  assert (Hlast : List.last (seg :: rest) "" = List.last rest seg)
    by apply last_cons_default.
  assert (Hwalk : Misskey.walk (Misskey.folders m') JNull (seg :: rest)
                  = Some (JStr (Misskey.folder_id f))).
  { cbn [Misskey.walk]. rewrite Hx, (lookup_app _ _ _ extra _ Hl1), <- Hx. exact Hw. }
  destruct fd' as [d|].
  - destruct Hfd' as (f' & Hf' & -> & [= He] & _).
    assert (f = f') by (apply (proj1 Hwf'); assumption). subst f'.
    exists f, m', (evs1 ++ evs). rewrite <- app_assoc.
    split; [reflexivity|]. rewrite Hlast. auto.
  - unfold drive_show_folders, send. cbn [remote].
    unfold Misskey.respond. rewrite (unique_find m' f (proj1 Hwf') Hf).
    exists f, m', (evs1 ++ evs ++ [Sent (PostDriveFoldersShow (JStr (Misskey.folder_id f)))]).
    cbn [events success_count skipped_count]. rewrite <- !app_assoc.
    split; [reflexivity|]. rewrite Hlast. auto.
Qed.

(** ["a/b"] on an instance that holds "a" only. *)
Lemma quiet_drive_returns_last_folder_witness :
  exists f m' evs,
    create_drive_folder_path Misskey.respond 1 "a/b"
      (mk_state (Misskey.mk_instance [Misskey.mk_folder "0" "a" None] [] [] 1) [] 0 0)
    = (Ok (Misskey.folder_json f), mk_state m' ([] ++ evs) 0 0) /\
    In f (Misskey.folders m') /\
    Misskey.folder_name f = List.last (Str.split "/" "a/b") "" /\
    Misskey.walk (Misskey.folders m') JNull (Str.split "/" "a/b")
    = Some (JStr (Misskey.folder_id f)) /\
    Quiet.well_formed m'.
Proof.
  apply (quiet_drive_returns_last_folder 0 "a/b"
           (Misskey.mk_instance [Misskey.mk_folder "0" "a" None] [] [] 1) [] 0 0).
  split; [|split].
  - intros f g [<-|[]] [<-|[]] _. reflexivity.
  - intros f j [<-|[]] Hj He. simpl in He, Hj.
    change "0" with (pretty 0%nat) in He. apply (inj pretty) in He. lia.
  - intros f p [<-|[]] Hp. discriminate.
Defined.

(** ** The scan of a listing *)

(** X14.  The scan of a folder listing stops at the first entry whose
    ["name"] is the segment and takes its ["id"]: entries after it are not
    looked at, so neither a second folder of the same name nor a malformed
    later entry changes the result.  The entries before it must each have a
    ["name"], which differs from the segment. *)
Theorem first_match_wins :
  forall (folder : string) (before after_ : list json) (f i : json),
    Forall (fun g => exists n, Py.getitem g "name" = Ok n /\
                               Py.eq_str n folder = false) before ->
    Py.getitem f "name" = Ok (JStr folder) ->
    Py.getitem f "id" = Ok i ->
    find_folder folder (before ++ f :: after_) = Ok (Some i).
Proof.
  intros folder before after_ f i Hb Hn Hi.
  induction Hb as [|g before (n & Hg & Hne) _ IH]; simpl.
  - rewrite Hn. simpl. rewrite String.eqb_refl, Hi. reflexivity.
  - rewrite Hg. simpl. rewrite Hne. exact IH.
Qed.

(** Two folders named "emojis", then an entry that is not even a dict. *)
Lemma first_match_wins_witness :
  find_folder "emojis"
    ([Scripted.record "1" "stickers"]
     ++ Scripted.record "2" "emojis" :: [Scripted.record "3" "emojis"; JNum 0])
  = Ok (Some (JStr "2")).
Proof.
  apply (first_match_wins "emojis" [Scripted.record "1" "stickers"]
           [Scripted.record "3" "emojis"; JNum 0] (Scripted.record "2" "emojis")
           (JStr "2")); [|reflexivity|reflexivity].
  constructor; [|constructor]. exists (JStr "stickers"). split; reflexivity.
Defined.

(** X15.  When the creation of a missing segment is answered, after any
    number of rate-limit retries, with another error, the resolution ends
    there with [RuntimeError] carrying the whole response body (not its
    ["error"] member, as the upload does); nothing is undone, and the
    segments after it are not looked at. *)
Theorem creation_error_aborts_resolution :
  forall (W : Type) (respond : request -> W -> json * W) (n fuel : nat)
         (folder : string) (rest : list string) (parent_id : json)
         (folder_data : option json) (st : state (W := W))
         (folders : json) (fs : list json) (w1 w2 w3 : W) (data : json),
    let listing := PostDriveFolders parent_id in
    let creation := PostDriveFoldersCreate folder parent_id in
    respond listing (remote st) = (folders, w1) ->
    Py.iter folders = Ok fs ->
    find_folder folder fs = Ok None ->
    limited respond n creation w1 = Some w2 ->
    respond creation w2 = (data, w3) ->
    is_error_except ["RATE_LIMIT_EXCEEDED"] data = true ->
    create_drive_folder_path_loop respond (n + S fuel) (folder :: rest) parent_id
      folder_data st
    = (Raise (RuntimeError data),
       after st w3 (Sent listing :: retries n creation ++ [Sent creation])).
Proof.
  intros W respond n fuel folder rest parent_id folder_data st folders fs
         w1 w2 w3 data listing creation Hr Hi Hf Hl Hc He.
  subst listing creation.
  rewrite (segment_missing respond _ _ _ _ _ _ _ _ _ Hr Hi Hf).
  unfold bind at 1.
  rewrite (create_drive_folder_limited respond n (S fuel) folder parent_id
             (after st w1 [Sent (PostDriveFolders parent_id)]) w2 Hl).
  erewrite create_drive_folder_error; [|simpl; exact Hc|exact He].
  rewrite !after_after. reflexivity.
Qed.

(** The creation of "emojis" is refused; "new" is never reached. *)
Lemma creation_error_aborts_resolution_witness :
  create_drive_folder_path_loop Scripted.respond 1 ["emojis"; "new"] JNull None
    (Scripted.init [JArr []; Scripted.error "ACCESS_DENIED"; JArr []])
  = (Raise (RuntimeError (Scripted.error "ACCESS_DENIED")),
     mk_state [JArr []]
       [Sent (PostDriveFolders JNull); Sent (PostDriveFoldersCreate "emojis" JNull)]
       0 0).
Proof.
  exact (creation_error_aborts_resolution Scripted.world Scripted.respond 0 0
           "emojis" ["new"] JNull None
           (Scripted.init [JArr []; Scripted.error "ACCESS_DENIED"; JArr []])
           (JArr []) [] [Scripted.error "ACCESS_DENIED"; JArr []]
           [Scripted.error "ACCESS_DENIED"; JArr []] [JArr []]
           (Scripted.error "ACCESS_DENIED")
           eq_refl eq_refl eq_refl eq_refl eq_refl eq_refl).
Defined.

(** ** Empty names *)

Lemma lower_replace_empty s : Str.replace "-" "_" (Str.lower s) = "" <-> s = "".
Proof. destruct s; simpl; split; intros H; try reflexivity; discriminate. Qed.

Lemma before_first_empty sep s :
  Str.before_first sep s = "" <-> s = "" \/ exists s', s = String sep s'.
Proof.
  destruct s as [|c s]; simpl.
  - split; auto.
  - destruct (Ascii.eqb c sep) eqn:Hc.
    + apply Ascii.eqb_eq in Hc. subst c. split; eauto.
    + split; [discriminate|]. intros [H|(s' & [= -> _])]; [discriminate|].
      rewrite Ascii.eqb_refl in Hc. discriminate.
Qed.

(** X16.  The derived emoji name is empty exactly when the base name is
    empty or starts with a dot: a hidden file such as [.gitignore] found in
    the emoji directory becomes a task for the emoji with the empty name. *)
Theorem derive_name_empty_iff_hidden :
  forall p : Path,
    derive_name p = "" <->
    PathLib.name p = "" \/ exists rest, PathLib.name p = String "." rest.
Proof.
  intros p. rewrite derive_name_spec. unfold derive_spec.
  rewrite lower_replace_empty. apply before_first_empty.
Qed.
